(** * Snowflurry benchmarking plot script: a shallow embedding of
      [benchmarking/plot.py] and the properties of its single pass.

    The script globs the JSON result files of a data directory, sorts the
    paths, and for each file draws one line and one scatter overlay per gate
    on a 2x3 grid of matplotlib axes, while it fills in three dictionaries
    (labels, colours, data).  The embedding is a state-and-exception monad
    over the script's global variables; the calls into [glob], [json] and
    [matplotlib] are modelled at their interface. *)

From Stdlib Require Import ZArith Ascii String.
From stdpp Require Import base option list strings gmap sorting.

Open Scope string_scope.
Open Scope list_scope.
Set Warnings "-register-all,-clear-no-such-hyp".

(** ** Python string operations used by the script *)

Module PyStr.

(** [s.split(sep)] for a one-character separator: never the empty list. *)
Fixpoint split (sep : ascii) (s : string) : list string :=
  match s with
  | EmptyString => [EmptyString]
  | String c s' =>
      if decide (c = sep) then EmptyString :: split sep s'
      else match split sep s' with
           | h :: t => String c h :: t
           | [] => [String c EmptyString]
           end
  end.

(** [l[-1]] on a list of strings; [None] stands for [IndexError]. *)
Definition last_item (l : list string) : option string := last l.

(** [s.startswith(p)] *)
Fixpoint startswith (p s : string) : bool :=
  match p, s with
  | EmptyString, _ => true
  | String a p', String b s' => if decide (a = b) then startswith p' s' else false
  | String _ _, EmptyString => false
  end.

(** [s.replace(old, new)] for a non-empty [old]: one scan from the left,
    occurrences are taken where they are met and never overlap; what has
    been produced is not scanned again.  [skip] counts the characters of
    the occurrence under deletion that are still to be passed over. *)
Fixpoint replace_from (old new : string) (skip : nat) (s : string) : string :=
  match s with
  | EmptyString => EmptyString
  | String c s' =>
      match skip with
      | S k => replace_from old new k s'
      | O =>
          if startswith old s
          then new +:+ replace_from old new (String.length old - 1) s'
          else String c (replace_from old new 0 s')
      end
  end.

Definition replace (old new s : string) : string := replace_from old new 0 s.

(** [sub in s] for strings *)
Fixpoint contains (sub s : string) : bool :=
  startswith sub s ||
  match s with
  | EmptyString => false
  | String _ s' => contains sub s'
  end.

(** [c in s] for a character *)
Fixpoint has_char (c : ascii) (s : string) : bool :=
  match s with
  | EmptyString => false
  | String d s' => if decide (c = d) then true else has_char c s'
  end.

End PyStr.

(** ** [glob.glob] on one directory

    [fnmatch] with the wildcards [*] and [?]; the script's pattern has no
    bracket expression. *)

Module Glob.

Fixpoint fnmatch (pat : string) : string -> bool :=
  match pat with
  | EmptyString => fun s => if s is EmptyString then true else false
  | String p pat' =>
      if decide (p = "*"%char) then
        fix star (s : string) : bool :=
          fnmatch pat' s || (if s is String _ s' then star s' else false)
      else if decide (p = "?"%char) then
        fun s => if s is String _ s' then fnmatch pat' s' else false
      else
        fun s => if s is String c s' then
                   if decide (p = c) then fnmatch pat' s' else false
                 else false
  end.

(** [glob._ishidden] *)
Definition ishidden (name : string) : bool := PyStr.startswith "." name.

(** [glob.glob(dirname + "/" + pattern)] for a [dirname] without wildcard:
    [names] is what [os.scandir(dirname)] lists, in the order the system
    gives them, or [None] when the directory cannot be listed, which glob
    turns into an empty result.  A pattern that does not start with a dot
    leaves hidden names out. *)
Definition glob (dirname pattern : string) (names : option (list string))
  : list string :=
  match names with
  | None => []
  | Some ns =>
      (fun n => dirname +:+ "/" +:+ n) <$>
        filter (fun n => fnmatch pattern n = true)
          (if ishidden pattern then ns
           else filter (fun n => ishidden n = false) ns)
  end.

End Glob.


(** ** JSON values, as [json.load] returns them *)

Inductive json : Type :=
  | JNull
  | JBool (b : bool)
  | JInt (n : Z)
  | JFloat (literal : string)
  | JStr (s : string)
  | JArr (items : list json)
  | JObj (fields : list (string * json)).

(** A float is kept by its literal: the script never computes with one.
    [JObj] holds the items of the Python dict; a key is looked up at its
    first binding. *)
Fixpoint assoc (k : string) (fields : list (string * json)) : option json :=
  match fields with
  | [] => None
  | (k', v) :: rest => if decide (k = k') then Some v else assoc k rest
  end.

(** ** Exceptions the script can end with *)

Inductive exn : Type :=
  | OSError (path : string)
  | JSONDecodeError (path : string)
  | AttributeError
  | TypeError
  | KeyError (key : string)
  | IndexError.

(** ** The data directory

    What a name of the directory holds is kept up to what [open] and
    [json.load] make of it. *)

Inductive node : Type :=
  | Unopenable            (* [open] raises: a directory, no permission *)
  | NotJSON               (* text that [json.load] rejects *)
  | Json (v : json).      (* text that [json.load] decodes to [v] *)

Record FileSystem : Type := {
  (** the entries of [benchmarking/data], in the order the system lists
      them; [None] when there is no such directory *)
  data_dir : option (list (string * node))
}.

Definition path : string := "benchmarking/data".

Definition listdir (fs : FileSystem) : option (list string) :=
  (fun es => es.*1) <$> data_dir fs.

(** The node behind a path of the form [path/name]. *)
Fixpoint find_entry (p : string) (es : list (string * node)) : option node :=
  match es with
  | [] => None
  | (n, nd) :: rest =>
      if decide (p = path +:+ "/" +:+ n) then Some nd else find_entry p rest
  end.

Definition fs_node (fs : FileSystem) (p : string) : option node :=
  es ← data_dir fs; find_entry p es.

(** ** The matplotlib objects the script builds *)

Record Line2D : Type := {
  l_xdata : json;
  l_ydata : json;
  l_label : string;
  l_linewidth : Z;
  l_color : string
}.

Record PathCollection : Type := {
  c_xdata : json;
  c_ydata : json;
  c_color : string;
  c_s : Z
}.

Record Axes : Type := {
  lines : list Line2D;
  collections : list PathCollection;
  (** how many colours [plot] has taken from this axes' property cycle *)
  cycle_pos : nat;
  yscale : string;
  (** the labels of the lines the last [legend()] call was built from;
      matplotlib does not show an entry whose label is empty or starts with
      an underscore *)
  legend : option (list string);
  title : string;
  grid : bool;
  xlabel : string;
  ylabel : string
}.

(** An axes as [plt.subplots] creates it. *)
Definition new_axes : Axes :=
  {| lines := []; collections := []; cycle_pos := 0; yscale := "linear";
     legend := None; title := EmptyString; grid := false;
     xlabel := EmptyString; ylabel := EmptyString |}.

(** ** The script's constants and its editable settings *)

Definition gatesList : list string := ["X"; "H"; "T"; "CNOT"; "Y"].

Definition markerSize : Z := 20.
Definition linewidth : Z := 1.

(** The three literals a user of the script edits, and the colours of
    matplotlib's property cycle ([rcParams["axes.prop_cycle"]]). *)
Record Config : Type := {
  cfg_labelsDict : gmap string string;
  cfg_colorsDict : gmap string string;
  ignoreList : list string;
  prop_cycle : list string
}.

Definition tab10 : list string :=
  ["#1f77b4"; "#ff7f0e"; "#2ca02c"; "#d62728"; "#9467bd";
   "#8c564b"; "#e377c2"; "#7f7f7f"; "#bcbd22"; "#17becf"].

(** The settings as the repository has them. *)
Definition script_config : Config :=
  {| cfg_labelsDict := {[ "dataYao_target=1" := "Yao" ]};
     cfg_colorsDict := {[ "dataYao_target=1" := "#C71585" ]};
     ignoreList := [];
     prop_cycle := tab10 |}.

Definition cycle_color (cfg : Config) (n : nat) : string :=
  nth (n mod length (prop_cycle cfg)) (prop_cycle cfg) EmptyString.

(** ** What a run does, in order *)

Inductive event : Type :=
  | EvPrint (fName : string)
  | EvOpen (fPath : string)
  (** [ax.plot] in the iteration [(fName, gate)]; [auto] when the colour
      came from the cycle *)
  | EvPlot (fName gate : string) (auto : bool) (l : Line2D)
  | EvScatter (fName gate : string) (c : PathCollection)
  | EvShow.

(** ** The script's global state *)

Record State : Type := {
  labelsDict : gmap string string;
  colorsDict : gmap string string;
  dataDict : gmap string json;
  (** [axs.ravel()]: the six axes, row by row *)
  axs : list Axes;
  (** oldest event first *)
  trace : list event
}.

Definition init (cfg : Config) : State :=
  {| labelsDict := cfg_labelsDict cfg;
     colorsDict := cfg_colorsDict cfg;
     dataDict := ∅;
     axs := replicate 6 new_axes;
     trace := [] |}.

(** ** A state-and-exception monad for the script

    A computation returns a value or raises, and in both cases leaves the
    state it reached: an exception does not undo what was drawn. *)

Inductive res (A : Type) : Type :=
  | Ret (a : A)
  | Raise (e : exn).
Arguments Ret {A} a.
Arguments Raise {A} e.

Definition M (A : Type) : Type := State -> res A * State.

Definition ret {A} (a : A) : M A := fun st => (Ret a, st).
Definition raise {A} (e : exn) : M A := fun st => (Raise e, st).
Definition bind {A B} (m : M A) (k : A -> M B) : M B :=
  fun st => match m st with
            | (Ret a, st') => k a st'
            | (Raise e, st') => (Raise e, st')
            end.

Notation "'let*' x ':=' m 'in' k" := (bind m (fun x => k))
  (at level 10, x name, m at level 100, k at level 200).
Notation "m '>>' k" := (bind m (fun _ => k))
  (at level 90, right associativity).

Definition get : M State := fun st => (Ret st, st).
Definition modify (f : State -> State) : M unit := fun st => (Ret tt, f st).

(** [d[k]] on a Python dict *)
Definition subscript {V} (d : gmap string V) (k : string) : M V :=
  match d !! k with
  | Some v => ret v
  | None => raise (KeyError k)
  end.

Definition emit (e : event) : M unit :=
  modify (fun st =>
    {| labelsDict := labelsDict st; colorsDict := colorsDict st;
       dataDict := dataDict st; axs := axs st; trace := trace st ++ [e] |}).

Definition set_label (k v : string) : M unit :=
  modify (fun st =>
    {| labelsDict := <[k := v]> (labelsDict st); colorsDict := colorsDict st;
       dataDict := dataDict st; axs := axs st; trace := trace st |}).

Definition set_color (k v : string) : M unit :=
  modify (fun st =>
    {| labelsDict := labelsDict st; colorsDict := <[k := v]> (colorsDict st);
       dataDict := dataDict st; axs := axs st; trace := trace st |}).

Definition set_data (k : string) (v : json) : M unit :=
  modify (fun st =>
    {| labelsDict := labelsDict st; colorsDict := colorsDict st;
       dataDict := <[k := v]> (dataDict st); axs := axs st; trace := trace st |}).

(** Apply a method to the axes at position [i] of [axs.ravel()]. *)
Definition on_axes (i : nat) (f : Axes -> Axes) : M unit :=
  modify (fun st =>
    {| labelsDict := labelsDict st; colorsDict := colorsDict st;
       dataDict := dataDict st; axs := alter f i (axs st);
       trace := trace st |}).

Definition get_axes (i : nat) : M Axes :=
  let* st := get in
  match axs st !! i with
  | Some ax => ret ax
  | None => raise IndexError
  end.

(** [for x in l: body(x)] *)
Fixpoint for_each {A} (l : list A) (body : A -> M unit) : M unit :=
  match l with
  | [] => ret tt
  | x :: l' => body x >> for_each l' body
  end.

(** ** Python operations on decoded JSON *)

(** [gate in v.keys()] *)
Definition has_key (v : json) (k : string) : res bool :=
  match v with
  | JObj fields => Ret (bool_decide (is_Some (assoc k fields)))
  | _ => Raise AttributeError
  end.

(** [v[k]] for a string [k] *)
Definition getitem (v : json) (k : string) : res json :=
  match v with
  | JObj fields =>
      match assoc k fields with
      | Some x => Ret x
      | None => Raise (KeyError k)
      end
  | _ => Raise TypeError
  end.

Definition lift {A} (r : res A) : M A := fun st => (r, st).

(** ** Calls into matplotlib

    The data handed to [plot] and [scatter] is stored as it is; what
    matplotlib itself checks on it is outside the model. *)

Definition add_line (l : Line2D) (advance : bool) (ax : Axes) : Axes :=
  {| lines := lines ax ++ [l]; collections := collections ax;
     cycle_pos := if advance then S (cycle_pos ax) else cycle_pos ax;
     yscale := yscale ax; legend := legend ax; title := title ax;
     grid := grid ax; xlabel := xlabel ax; ylabel := ylabel ax |}.

(** [ax.plot(x, y, label=, linewidth=)] and, with [Some c],
    [ax.plot(x, y, label=, linewidth=, color=c)].  Without a colour the
    line takes the next colour of the axes' cycle; with one the cycle is
    left where it is.  The result is the line [plot] returns. *)
Definition ax_plot (cfg : Config) (i : nat) (fName gate : string)
    (x y : json) (label : string) (lw : Z) (color : option string) : M Line2D :=
  let* ax := get_axes i in
  let l := {| l_xdata := x; l_ydata := y; l_label := label;
              l_linewidth := lw;
              l_color := default (cycle_color cfg (cycle_pos ax)) color |} in
  on_axes i (add_line l (bool_decide (color = None))) >>
  emit (EvPlot fName gate (bool_decide (color = None)) l) >>
  ret l.

Definition add_collection (c : PathCollection) (ax : Axes) : Axes :=
  {| lines := lines ax; collections := collections ax ++ [c];
     cycle_pos := cycle_pos ax;
     yscale := yscale ax; legend := legend ax; title := title ax;
     grid := grid ax; xlabel := xlabel ax; ylabel := ylabel ax |}.

(** [ax.scatter(x, y, color=, s=)] *)
Definition ax_scatter (i : nat) (fName gate : string)
    (x y : json) (color : string) (s : Z) : M unit :=
  let c := {| c_xdata := x; c_ydata := y; c_color := color; c_s := s |} in
  on_axes i (add_collection c) >>
  emit (EvScatter fName gate c).

Definition set_yscale (v : string) (ax : Axes) : Axes :=
  {| lines := lines ax; collections := collections ax;
     cycle_pos := cycle_pos ax;
     yscale := v; legend := legend ax; title := title ax;
     grid := grid ax; xlabel := xlabel ax; ylabel := ylabel ax |}.

(** [ax.legend()]: built from the lines on the axes at the call *)
Definition make_legend (ax : Axes) : Axes :=
  {| lines := lines ax; collections := collections ax;
     cycle_pos := cycle_pos ax;
     yscale := yscale ax; legend := Some (l_label <$> lines ax);
     title := title ax;
     grid := grid ax; xlabel := xlabel ax; ylabel := ylabel ax |}.

Definition set_title (v : string) (ax : Axes) : Axes :=
  {| lines := lines ax; collections := collections ax;
     cycle_pos := cycle_pos ax;
     yscale := yscale ax; legend := legend ax; title := v;
     grid := grid ax; xlabel := xlabel ax; ylabel := ylabel ax |}.

(** [ax.grid("minor")]: the string lands in the first parameter, the
    visibility, and is true as a condition *)
Definition set_grid (ax : Axes) : Axes :=
  {| lines := lines ax; collections := collections ax;
     cycle_pos := cycle_pos ax;
     yscale := yscale ax; legend := legend ax; title := title ax;
     grid := true; xlabel := xlabel ax; ylabel := ylabel ax |}.

Definition set_xlabel (v : string) (ax : Axes) : Axes :=
  {| lines := lines ax; collections := collections ax;
     cycle_pos := cycle_pos ax;
     yscale := yscale ax; legend := legend ax; title := title ax;
     grid := grid ax; xlabel := v; ylabel := ylabel ax |}.

Definition set_ylabel (v : string) (ax : Axes) : Axes :=
  {| lines := lines ax; collections := collections ax;
     cycle_pos := cycle_pos ax;
     yscale := yscale ax; legend := legend ax; title := title ax;
     grid := grid ax; xlabel := xlabel ax; ylabel := v |}.

(** ** The script *)

(** [fPath.split("/")[-1].replace(".json", '')]: [split] never returns
    the empty list (see [split_last]), so [[-1]] cannot raise. *)
Definition fName_of (fPath : string) : string :=
  PyStr.replace ".json" EmptyString
    (default EmptyString (PyStr.last_item (PyStr.split "/" fPath))).

(** [resultFiles] after [resultFiles.sort()]: Python compares strings
    code point by code point, which on UTF-8 bytes is the byte order.
    The pathname [path + "/*.json"] splits at its last slash into the
    directory and the pattern. *)
Definition resultFiles (fs : FileSystem) : list string :=
  merge_sort String.le (Glob.glob path "*.json" (listdir fs)).

(** [with open(fPath, "r") as f: json.load(f)] *)
Definition open_load (fs : FileSystem) (fPath : string) : M json :=
  emit (EvOpen fPath) >>
  match fs_node fs fPath with
  | None | Some Unopenable => raise (OSError fPath)
  | Some NotJSON => raise (JSONDecodeError fPath)
  | Some (Json v) => ret v
  end.

(** [dataDict[fName][gate][key]] *)
Definition series (fName gate key : string) : M json :=
  let* st := get in
  let* d := subscript (dataDict st) fName in
  let* g := lift (getitem d gate) in
  lift (getitem g key).

(** The body of the loop over [zip(axs.ravel(), gatesList)]; [i] is the
    position of [ax] in [axs.ravel()]. *)
Definition plot_gate (cfg : Config) (fName : string) (i : nat) (gate : string)
    : M unit :=
  let* st := get in
  let* d := subscript (dataDict st) fName in
  let* present := lift (has_key d gate) in
  if present : bool then
    (match colorsDict st !! fName with
     | None =>
         let* x := series fName gate "nqubits" in
         let* y := series fName gate "times" in
         let* label := subscript (labelsDict st) fName in
         let* line := ax_plot cfg i fName gate x y label linewidth None in
         set_color fName (l_color line)
     | Some _ =>
         let* x := series fName gate "nqubits" in
         let* y := series fName gate "times" in
         let* label := subscript (labelsDict st) fName in
         let* c := subscript (colorsDict st) fName in
         let* _ := ax_plot cfg i fName gate x y label linewidth (Some c) in
         ret tt
     end) >>
    let* x := series fName gate "nqubits" in
    let* y := series fName gate "times" in
    let* st' := get in
    let* c := subscript (colorsDict st') fName in
    ax_scatter i fName gate x y c markerSize >>
    on_axes i (set_yscale "log") >>
    on_axes i make_legend >>
    on_axes i (set_title (gate +:+ " gate")) >>
    on_axes i set_grid >>
    on_axes i (set_xlabel "n qubits") >>
    on_axes i (set_ylabel "time (ns)")
  else ret tt.

(** [zip(axs.ravel(), gatesList)]: the six axes against the five gates;
    [zip] stops at the shorter. *)
Definition gate_axes : list (nat * string) := zip (seq 0 6) gatesList.

(** The body of [for fPath in resultFiles]; returning early is the
    [continue]. *)
Definition process_file (cfg : Config) (fs : FileSystem) (fPath : string) : M unit :=
  let fName := fName_of fPath in
  if bool_decide (fName ∈ ignoreList cfg) then ret tt
  else
    let* st := get in
    (if bool_decide (is_Some (labelsDict st !! fName)) then ret tt
     else set_label fName fName) >>
    emit (EvPrint fName) >>
    let* v := open_load fs fPath in
    set_data fName v >>
    for_each gate_axes (fun ig => plot_gate cfg fName ig.1 ig.2).

Definition run_files (cfg : Config) (fs : FileSystem) (files : list string) : M unit :=
  for_each files (process_file cfg fs).

(** The whole script; [plt.tight_layout()] changes nothing that is
    modelled. *)
Definition main (cfg : Config) (fs : FileSystem) : M unit :=
  run_files cfg fs (resultFiles fs) >> emit EvShow.

Definition run (cfg : Config) (fs : FileSystem) : res unit * State :=
  main cfg fs (init cfg).

(** * Definitions used by the properties *)

(** ** The script as state transformers

    Each call of the loop bodies either leaves the state as it is or moves
    it by one of the steps below: a file is begun, its record is stored, a
    series is drawn; the figure is shown at the end. *)

Definition begin_file (fName fPath : string) (st : State) : State :=
  {| labelsDict := if bool_decide (is_Some (labelsDict st !! fName))
                   then labelsDict st else <[fName := fName]> (labelsDict st);
     colorsDict := colorsDict st; dataDict := dataDict st; axs := axs st;
     trace := trace st ++ [EvPrint fName; EvOpen fPath] |}.

Definition store (fName : string) (v : json) (st : State) : State :=
  {| labelsDict := labelsDict st; colorsDict := colorsDict st;
     dataDict := <[fName := v]> (dataDict st); axs := axs st;
     trace := trace st |}.

Definition decorate (gate : string) (ax : Axes) : Axes :=
  set_ylabel "time (ns)" (set_xlabel "n qubits" (set_grid
    (set_title (gate +:+ " gate") (make_legend (set_yscale "log" ax))))).

Definition drawn_line (cfg : Config) (fName : string) (x y : json)
    (lab : string) (ax : Axes) (st : State) : Line2D :=
  {| l_xdata := x; l_ydata := y; l_label := lab; l_linewidth := linewidth;
     l_color := default (cycle_color cfg (cycle_pos ax)) (colorsDict st !! fName) |}.

Definition drawn_points (cfg : Config) (fName : string) (x y : json)
    (ax : Axes) (st : State) : PathCollection :=
  {| c_xdata := x; c_ydata := y;
     c_color := default (cycle_color cfg (cycle_pos ax)) (colorsDict st !! fName);
     c_s := markerSize |}.

Definition is_auto (fName : string) (st : State) : bool :=
  bool_decide (colorsDict st !! fName = None).

Definition draw (cfg : Config) (fName : string) (i : nat) (gate : string)
    (x y : json) (lab : string) (ax : Axes) (st : State) : State :=
  let l := drawn_line cfg fName x y lab ax st in
  let c := drawn_points cfg fName x y ax st in
  {| labelsDict := labelsDict st;
     colorsDict := match colorsDict st !! fName with
                   | None => <[fName := l_color l]> (colorsDict st)
                   | Some _ => colorsDict st
                   end;
     dataDict := dataDict st;
     axs := <[i := decorate gate (add_collection c
                     (add_line l (is_auto fName st) ax))]> (axs st);
     trace := trace st ++ [EvPlot fName gate (is_auto fName st) l;
                           EvScatter fName gate c] |}.

Definition show (st : State) : State :=
  {| labelsDict := labelsDict st; colorsDict := colorsDict st;
     dataDict := dataDict st; axs := axs st; trace := trace st ++ [EvShow] |}.

Inductive step (cfg : Config) : State → State → Prop :=
  | step_begin st p :
      fName_of p ∉ ignoreList cfg →
      step cfg st (begin_file (fName_of p) p st)
  | step_store st p v :
      fName_of p ∉ ignoreList cfg →
      step cfg st (store (fName_of p) v st)
  | step_draw st fName i gate x y lab ax :
      fName ∉ ignoreList cfg → (i, gate) ∈ gate_axes →
      labelsDict st !! fName = Some lab → axs st !! i = Some ax →
      step cfg st (draw cfg fName i gate x y lab ax st)
  | step_show st : step cfg st (show st).

(** ** What the trace tells *)

Definition event_source (e : event) : option string :=
  match e with
  | EvPrint s => Some s
  | EvOpen p => Some (fName_of p)
  | EvPlot s _ _ _ => Some s
  | EvScatter s _ _ => Some s
  | EvShow => None
  end.

(** The source and the colour of a drawing call. *)
Definition event_colour (e : event) : option (string * string) :=
  match e with
  | EvPlot s _ _ l => Some (s, l_color l)
  | EvScatter s _ c => Some (s, c_color c)
  | _ => None
  end.

(** An event without the data it carries. *)
Inductive mark : Type :=
  | MPrint (fName : string)
  | MOpen (fPath : string)
  | MPlot (fName gate : string) (auto : bool)
  | MScatter (fName gate : string)
  | MShow.

Definition mark_of (e : event) : mark :=
  match e with
  | EvPrint s => MPrint s
  | EvOpen p => MOpen p
  | EvPlot s g a _ => MPlot s g a
  | EvScatter s g _ => MScatter s g
  | EvShow => MShow
  end.

Definition marks (st : State) : list mark := mark_of <$> trace st.

(** The (source, gate) pairs of the [plot] calls, in order. *)
Definition plotted (ms : list mark) : list (string * string) :=
  omap (fun m => match m with MPlot s g _ => Some (s, g) | _ => None end) ms.

(** The (source, gate) pairs of the [scatter] calls, in order. *)
Definition scattered (ms : list mark) : list (string * string) :=
  omap (fun m => match m with MScatter s g => Some (s, g) | _ => None end) ms.

(** The paths handed to [open], in order. *)
Definition opened (ms : list mark) : list string :=
  omap (fun m => match m with MOpen p => Some p | _ => None end) ms.

(** The sources of the [plot] calls that took a colour from a cycle. *)
Definition autos (ms : list mark) : list string :=
  omap (fun m => match m with MPlot s _ true => Some s | _ => None end) ms.


(** ** Invariants of a run *)

(** The label a source is to carry: its override when it has one, its own
    name otherwise. *)
Definition label_of (cfg : Config) (s : string) : string :=
  match cfg_labelsDict cfg !! s with
  | Some v => v
  | None => s
  end.

Definition labels_ok (cfg : Config) (st : State) : Prop :=
  (∀ s v, cfg_labelsDict cfg !! s = Some v → labelsDict st !! s = Some v)
  ∧ (∀ s v, labelsDict st !! s = Some v → v = label_of cfg s)
  ∧ (∀ s g a l, EvPlot s g a l ∈ trace st → l_label l = label_of cfg s).

Definition colours_ok (st : State) : Prop :=
  ∀ e s c, e ∈ trace st → event_colour e = Some (s, c) →
           colorsDict st !! s = Some c.

Definition sources_ok (cfg : Config) (st : State) : Prop :=
  ∀ e s, e ∈ trace st → event_source e = Some s → s ∉ ignoreList cfg.



(** ** What a run is to draw *)

Definition key_present (d : json) (g : string) : bool :=
  match has_key d g with
  | Ret true => true
  | _ => false
  end.

(** The gates of [gl] that are keys of the record [d]. *)
Definition present_gates (d : json) (gl : list string) : list string :=
  filter (fun g => key_present d g) gl.

(** What drawing the gates [gs] of one source leaves in the trace; only
    the first call can take its colour from a cycle. *)
Fixpoint gate_marks (fName : string) (auto : bool) (gs : list string)
    : list mark :=
  match gs with
  | [] => []
  | g :: gs' =>
      MPlot fName g auto :: MScatter fName g :: gate_marks fName false gs'
  end.

(** The gates drawn for a file: those of [gatesList] that are keys of its
    record. *)
Definition file_gates (fs : FileSystem) (p : string) : list string :=
  match fs_node fs p with
  | Some (Json d) => present_gates d gatesList
  | _ => []
  end.

(** The files of a list that the loop does not skip. *)
Definition kept (cfg : Config) (files : list string) : list string :=
  filter (fun p => fName_of p ∉ ignoreList cfg) files.

(** The (source, gate) pairs a run over [files] is to draw, in order. *)
Definition expected_pairs (cfg : Config) (fs : FileSystem) (files : list string)
    : list (string * string) :=
  concat ((fun p => (fun g => (fName_of p, g)) <$> file_gates fs p)
            <$> kept cfg files).

(** What a run over [files] that ended with [r] has added to the trace. *)
Definition shape_ok (cfg : Config) (fs : FileSystem) (files : list string)
    (r : res unit) (T : list mark) : Prop :=
  plotted T `prefix_of` expected_pairs cfg fs files
  ∧ (r = Ret tt → plotted T = expected_pairs cfg fs files)
  ∧ scattered T = plotted T
  ∧ opened T `prefix_of` kept cfg files
  ∧ (r = Ret tt → opened T = kept cfg files)
  ∧ autos T `sublist_of` (fName_of <$> opened T)
  ∧ MShow ∉ T.



(** ** Changes of the data directory *)

(** The data directory without the entries named [n]. *)
Definition remove_file (n : string) (fs : FileSystem) : FileSystem :=
  {| data_dir := filter (fun e => e.1 ≠ n) <$> data_dir fs |}.

(** The data directory with [nd] put behind the name [n]. *)
Definition set_file (n : string) (nd : node) (fs : FileSystem) : FileSystem :=
  {| data_dir :=
       (fun es : list (string * node) =>
          (fun e : string * node => if decide (e.1 = n) then (n, nd) else e)
            <$> es) <$> data_dir fs |}.

(** ** The load step and the shape of a benchmark record *)

(** The exceptions of the load step, [open] and [json.load]. *)
Definition load_error (e : exn) : bool :=
  match e with
  | OSError _ | JSONDecodeError _ => true
  | _ => false
  end.





(** ** The claims that fail, as the specification words them *)

(** The claim on file discovery as the specification words it: whatever
    lives in the data directory becomes an input. *)
Definition every_file_is_input (fs : FileSystem) : Prop :=
  ∀ es n, data_dir fs = Some es → n ∈ es.*1 →
          (path +:+ "/" +:+ n) ∈ resultFiles fs.




(** ** Sample directories and settings *)

Definition xs3 : json := JArr [JInt 1; JInt 2; JInt 3].
Definition ts3 : json := JArr [JFloat "10.5"; JFloat "20.25"; JFloat "30.0"].

(** A benchmark record with the given gates. *)
Definition record_with (gates : list string) : json :=
  JObj ((fun g => (g, JObj [("nqubits", xs3); ("times", ts3)])) <$> gates).

Definition fs_demo : FileSystem :=
  {| data_dir := Some [("b.json", Json (record_with ["H"; "Y"]));
                       ("a.json", Json (record_with ["X"; "H"]));
                       ("notes.txt", NotJSON);
                       ("old.json", NotJSON);
                       ("dataYao_target=1.json", Json (record_with ["X"])) ] |}.

(** The repository's settings, with one name put on the ignore list. *)
Definition cfg_demo : Config :=
  {| cfg_labelsDict := cfg_labelsDict script_config;
     cfg_colorsDict := cfg_colorsDict script_config;
     ignoreList := ["old"];
     prop_cycle := tab10 |}.

Definition fs_notes : FileSystem := {| data_dir := Some [("notes.txt", NotJSON)] |}.



(** ** Notions for the further properties *)




(** A directory with an unreadable file and one holding a JSON list. *)
Definition fs_locked : FileSystem :=
  {| data_dir := Some [("a.json", Unopenable)] |}.

Definition fs_list : FileSystem :=
  {| data_dir := Some [("a.json", Json (JArr [JInt 1; JInt 2]))] |}.

(** The names printed, in order. *)
Definition printed (ms : list mark) : list string :=
  omap (fun m => match m with MPrint s => Some s | _ => None end) ms.

(** What the label dictionary holds: the overrides, and [s ↦ s] for the
    sources without override whose name was printed. *)
Definition labels_exact (cfg : Config) (st : State) : Prop :=
  ∀ s v, labelsDict st !! s = Some v ↔
         cfg_labelsDict cfg !! s = Some v
         ∨ (cfg_labelsDict cfg !! s = None ∧ v = s ∧ EvPrint s ∈ trace st).

(** What the colour dictionary holds: the overrides, and for a source
    without override the colour of the line that took it from a cycle. *)
Definition colours_exact (cfg : Config) (st : State) : Prop :=
  (∀ s c, cfg_colorsDict cfg !! s = Some c → colorsDict st !! s = Some c)
  ∧ (∀ s c, colorsDict st !! s = Some c →
            cfg_colorsDict cfg !! s = Some c
            ∨ (cfg_colorsDict cfg !! s = None
               ∧ ∃ g l, EvPlot s g true l ∈ trace st ∧ l_color l = c))
  ∧ (∀ s g l, EvPlot s g true l ∈ trace st → cfg_colorsDict cfg !! s = None)
  ∧ NoDup (autos (marks st))
  ∧ (∀ s, s ∈ autos (marks st) → is_Some (colorsDict st !! s)).



(** The data dictionary after the files [ps] were opened in this order,
    starting from [m]: a later file with the same derived name replaces
    the record of an earlier one; a file that does not load adds
    nothing. *)
Definition records_of (fs : FileSystem) (ps : list string)
    (m : gmap string json) : gmap string json :=
  foldl (fun m p => match fs_node fs p with
                    | Some (Json d) => <[fName_of p := d]> m
                    | _ => m
                    end) m ps.

(** [x] and [y] are what the script reads for the gate [g] in the record
    [d]: [d[g]["nqubits"]] and [d[g]["times"]]. *)
Definition reads (d : json) (g : string) (x y : json) : Prop :=
  ∃ e0, getitem d g = Ret e0
        ∧ getitem e0 "nqubits" = Ret x ∧ getitem e0 "times" = Ret y.

(** A drawing call shows the data of the record [d] of the source [f]. *)
Definition event_shows (f : string) (d : json) (e : event) : Prop :=
  match e with
  | EvPlot s g _ l => s = f ∧ reads d g (l_xdata l) (l_ydata l)
  | EvScatter s g c => s = f ∧ reads d g (c_xdata c) (c_ydata c)
  | _ => True
  end.

(** A drawing call shows the data of one of the files. *)
Definition event_reads (fs : FileSystem) (files : list string) (e : event)
    : Prop :=
  match e with
  | EvPlot s _ _ _ | EvScatter s _ _ =>
      ∃ p d, p ∈ files ∧ fName_of p = s ∧ fs_node fs p = Some (Json d)
             ∧ event_shows s d e
  | _ => True
  end.





(** * Properties *)

(** ** Strings and glob *)

Section string_facts.

Lemma split_nonempty sep s : PyStr.split sep s ≠ [].
Proof.
  destruct s as [|c s]; simpl; [done|].
  case_decide; [done|]. by destruct (PyStr.split sep s).
Qed.

Lemma split_app sep a b :
  PyStr.split sep (a +:+ String sep b)
  = (PyStr.split sep a ++ PyStr.split sep b)%list.
Proof.
  induction a as [|c a IH]; simpl.
  - by rewrite decide_True.
  - case_decide; [by rewrite IH|].
    rewrite IH. pose proof (split_nonempty sep a).
    by destruct (PyStr.split sep a).
Qed.

Lemma split_no_sep sep s :
  PyStr.has_char sep s = false → PyStr.split sep s = [s].
Proof.
  induction s as [|c s IH]; simpl; [done|].
  case_decide; [done|]. intros Hs. rewrite decide_False by congruence.
  by rewrite IH.
Qed.

Lemma split_last sep s : is_Some (PyStr.last_item (PyStr.split sep s)).
Proof.
  unfold PyStr.last_item. pose proof (split_nonempty sep s) as H.
  destruct (PyStr.split sep s) as [|h t] using rev_ind; [done|].
  rewrite last_snoc. eauto.
Qed.

Lemma last_component dir name :
  PyStr.has_char "/" name = false →
  PyStr.last_item (PyStr.split "/" (dir +:+ "/" +:+ name)) = Some name.
Proof.
  intros Hn. change ("/" +:+ name) with (String "/" name).
  rewrite split_app, (split_no_sep _ name Hn).
  unfold PyStr.last_item. by rewrite last_snoc.
Qed.

(** An occurrence of [".json"] cannot start inside [u] and run over into a
    following [".json"]: the dot occurs in the pattern only at its head. *)
Lemma startswith_json_app c u w :
  PyStr.startswith ".json" (String c u) = false →
  PyStr.startswith ".json" (String c u +:+ ".json" +:+ w) = false.
Proof.
  simpl. case_decide; [subst c|done].
  destruct u as [|c1 u]; simpl; [done|].
  case_decide; [subst c1|done].
  destruct u as [|c2 u]; simpl; [done|].
  case_decide; [subst c2|done].
  destruct u as [|c3 u]; simpl; [done|].
  case_decide; [subst c3|done].
  destruct u as [|c4 u]; simpl; [done|].
  case_decide; [subst c4|done]. done.
Qed.

Lemma replace_from_pass old new c s :
  PyStr.startswith old (String c s) = false →
  PyStr.replace_from old new 0 (String c s)
  = String c (PyStr.replace_from old new 0 s).
Proof. intros H. cbn [PyStr.replace_from]. by rewrite H. Qed.

Lemma replace_json_skip u rest :
  PyStr.contains ".json" u = false →
  PyStr.replace ".json" EmptyString (u +:+ ".json" +:+ rest)
  = u +:+ PyStr.replace ".json" EmptyString rest.
Proof.
  unfold PyStr.replace. induction u as [|c u IH]; [done|].
  intros Hc. cbn [PyStr.contains] in Hc.
  apply orb_false_iff in Hc as [Hs Hc].
  pose proof (startswith_json_app _ _ rest Hs) as Hs'.
  change (String c u +:+ ".json" +:+ rest)
    with (String c (u +:+ ".json" +:+ rest)) in Hs' |- *.
  rewrite (replace_from_pass _ _ _ _ Hs'), IH by done. done.
Qed.

Lemma replace_json_id u :
  PyStr.contains ".json" u = false → PyStr.replace ".json" EmptyString u = u.
Proof.
  unfold PyStr.replace. induction u as [|c u IH]; [done|].
  intros Hc. cbn [PyStr.contains] in Hc.
  apply orb_false_iff in Hc as [Hs Hc].
  rewrite (replace_from_pass _ _ _ _ Hs), IH by done. done.
Qed.

End string_facts.

(** C10. The derived source name is the last path component with every
    occurrence of ".json" deleted, not only a trailing extension: the name
    of [dir/name] is [name] under [replace]; [replace] copies a stretch
    without ".json", drops the occurrence that follows and goes on with
    the rest; "a.json.json" gives "a" and "x.jsonfoo.json" gives "xfoo". *)
Theorem fName_deletes_every_json (dir name u rest : string) :
  PyStr.has_char "/" name = false →
  PyStr.contains ".json" u = false →
  fName_of (dir +:+ "/" +:+ name) = PyStr.replace ".json" EmptyString name
  ∧ PyStr.replace ".json" EmptyString (u +:+ ".json" +:+ rest)
    = u +:+ PyStr.replace ".json" EmptyString rest
  ∧ PyStr.replace ".json" EmptyString u = u
  ∧ fName_of "benchmarking/data/a.json.json" = "a"
  ∧ fName_of "benchmarking/data/x.jsonfoo.json" = "xfoo".
Proof.
  intros Hname Hu. split_and!.
  - unfold fName_of. by rewrite last_component.
  - by apply replace_json_skip.
  - by apply replace_json_id.
  - reflexivity.
  - reflexivity.
Qed.

Lemma fName_deletes_every_json_witness :
  fName_of ("benchmarking/data" +:+ "/" +:+ "run.json.bak.json") = "run.bak"
  ∧ PyStr.replace ".json" EmptyString ("x.js" +:+ ".json" +:+ "on.json") = "x.json".
Proof.
  destruct (fName_deletes_every_json "benchmarking/data" "run.json.bak.json"
              "x.js" "on.json" eq_refl eq_refl) as (H1 & H2 & _).
  split; [rewrite H1; reflexivity | rewrite H2; reflexivity].
Defined.

(** ** File discovery *)

Section glob_facts.

Lemma fnmatch_json_exact s : Glob.fnmatch ".json" s = true ↔ s = ".json".
Proof.
  split; [|by intros ->].
  destruct s as [|c0 [|c1 [|c2 [|c3 [|c4 [|c5 s]]]]]]; simpl; try done;
    repeat (destruct (decide _) as [<-|]; [|done]); done.
Qed.

Lemma fnmatch_star_cons pat c s :
  Glob.fnmatch (String "*" pat) (String c s)
  = Glob.fnmatch pat (String c s) || Glob.fnmatch (String "*" pat) s.
Proof. reflexivity. Qed.

Lemma fnmatch_star_json n :
  Glob.fnmatch "*.json" n = true ↔ ∃ stem, n = stem +:+ ".json".
Proof.
  induction n as [|c n IH].
  - split; [done|]. by intros [[|??] ?].
  - rewrite fnmatch_star_cons, orb_true_iff, fnmatch_json_exact, IH.
    split.
    + intros [->|[stem ->]]; [by exists EmptyString|by exists (String c stem)].
    + intros [[|c' stem] Hn]; simpl in Hn; [by left|].
      injection Hn as -> ->. right; eauto.
Qed.

Lemma elem_of_glob_json dirname ns p :
  p ∈ Glob.glob dirname "*.json" (Some ns) ↔
  ∃ n, n ∈ ns ∧ p = dirname +:+ "/" +:+ n
       ∧ Glob.fnmatch "*.json" n = true ∧ Glob.ishidden n = false.
Proof.
  unfold Glob.glob. change (Glob.ishidden "*.json") with false.
  cbv iota. rewrite list_elem_of_fmap. setoid_rewrite list_elem_of_filter.
  setoid_rewrite list_elem_of_filter. naive_solver.
Qed.

Lemma elem_of_resultFiles fs p :
  p ∈ resultFiles fs ↔
  ∃ es n, data_dir fs = Some es ∧ n ∈ es.*1 ∧ p = path +:+ "/" +:+ n
          ∧ Glob.fnmatch "*.json" n = true ∧ Glob.ishidden n = false.
Proof.
  unfold resultFiles. rewrite merge_sort_Permutation.
  unfold listdir. destruct (data_dir fs) as [es|].
  - change ((λ es0, es0.*1) <$> Some es) with (Some es.*1).
    rewrite elem_of_glob_json. naive_solver.
  - split; [by intros ?%elem_of_nil|]. by intros (? & ? & ? & _).
Qed.

End glob_facts.

(** C4, as stated, fails: a file of the data directory whose name does not
    end in ".json" is not matched. *)
Lemma every_file_is_input_fails : ¬ every_file_is_input fs_notes.
Proof.
  intros H.
  assert (Hin : "notes.txt" ∈ [("notes.txt", NotJSON)].*1) by set_solver.
  specialize (H _ _ eq_refl Hin).
  vm_compute in H. by apply elem_of_nil in H.
Qed.

(** C4, amended. File discovery takes the entries of the data directory
    whose name ends in ".json" and does not start with a dot, and nothing
    else: a path is an input exactly when it is [path/name] for such a
    name. *)
Theorem resultFiles_are_the_json_files (fs : FileSystem) (p : string) :
  p ∈ resultFiles fs ↔
  ∃ es n, data_dir fs = Some es ∧ n ∈ es.*1 ∧ p = path +:+ "/" +:+ n
          ∧ (∃ stem, n = stem +:+ ".json")
          ∧ PyStr.startswith "." n = false.
Proof.
  rewrite elem_of_resultFiles. by setoid_rewrite fnmatch_star_json.
Qed.

Lemma resultFiles_are_the_json_files_witness :
  "benchmarking/data/a.json" ∈ resultFiles fs_demo.
Proof.
  apply (resultFiles_are_the_json_files fs_demo "benchmarking/data/a.json").
  eexists _, "a.json". split; [reflexivity|].
  split; [vm_compute; repeat constructor|].
  split; [reflexivity|].
  split; [by exists "a"|reflexivity].
Defined.

(** ** The loop bodies, unfolded *)

Lemma list_alter_at {A} (f : A → A) (l : list A) i x :
  l !! i = Some x → alter f i l = <[i := f x]> l.
Proof.
  revert i. induction l as [|a l IH]; intros [|i] ?; simplify_eq/=;
    [done|]. f_equal. by apply IH.
Qed.

Lemma has_key_raise d k e : has_key d k = Raise e → load_error e = false.
Proof. destruct d; intros; by simplify_eq/=. Qed.

Lemma getitem_raise d k e : getitem d k = Raise e → load_error e = false.
Proof. destruct d; intros; simplify_eq/=; [done..|]. by case_match; simplify_eq. Qed.

Ltac stays :=
  cbv beta iota; intros [= <- <-]; left; split_and!;
  [reflexivity|discriminate
  |intros ? [= <-]; eauto using has_key_raise, getitem_raise].

(** One step through a chain of binds: project the fields of the state
    built so far and resolve the lookups whose result is known. *)
Ltac run_step :=
  cbv beta iota;
  cbn [labelsDict colorsDict dataDict axs trace l_color];
  rewrite ?lookup_insert_eq;
  repeat match goal with
         | H : ?x = _ |- context [match ?x with _ => _ end] => rewrite H
         end;
  cbv beta iota.

Section unfolding.

Context (cfg : Config) (fs : FileSystem).

Lemma process_file_unfold p st :
  process_file cfg fs p st =
    if bool_decide (fName_of p ∈ ignoreList cfg) then (Ret tt, st)
    else
      let st1 := begin_file (fName_of p) p st in
      match fs_node fs p with
      | Some (Json v) =>
          for_each gate_axes
            (fun ig => plot_gate cfg (fName_of p) ig.1 ig.2)
            (store (fName_of p) v st1)
      | Some NotJSON => (Raise (JSONDecodeError p), st1)
      | _ => (Raise (OSError p), st1)
      end.
Proof.
  unfold process_file. case_bool_decide; [done|].
  unfold begin_file, store, bind, get, open_load, emit, set_label, set_data,
    modify, ret, raise, bind.
  case_bool_decide; cbn [trace labelsDict colorsDict dataDict axs];
    rewrite <-app_assoc; destruct (fs_node fs p) as [[]|]; reflexivity.
Qed.

Lemma plot_gate_cases fName i gate st r st' :
  plot_gate cfg fName i gate st = (r, st') →
  (st' = st
   ∧ (r = Ret tt → ∃ d, dataDict st !! fName = Some d
                        ∧ has_key d gate = Ret false)
   ∧ (∀ e, r = Raise e → load_error e = false))
  ∨ ∃ d g x y lab ax,
      r = Ret tt ∧ dataDict st !! fName = Some d
      ∧ has_key d gate = Ret true
      ∧ getitem d gate = Ret g
      ∧ getitem g "nqubits" = Ret x ∧ getitem g "times" = Ret y
      ∧ labelsDict st !! fName = Some lab ∧ axs st !! i = Some ax
      ∧ st' = draw cfg fName i gate x y lab ax st.
Proof.
  unfold plot_gate, series, ax_plot, ax_scatter, get_axes, on_axes, emit,
    set_color, subscript, lift, modify, bind, get, ret, raise.
  destruct (dataDict st !! fName) as [d|] eqn:Hd; [|stays].
  destruct (has_key d gate) as [[]|] eqn:Hk;
    [|intros [= <- <-]; left; split_and!; eauto; done|stays].
  destruct (colorsDict st !! fName) as [c0|] eqn:Hc; run_step;
    (destruct (getitem d gate) as [g|?] eqn:Hg; [|stays]); run_step;
    (destruct (getitem g "nqubits") as [x|?] eqn:Hx; [|stays]); run_step;
    (destruct (getitem g "times") as [y|?] eqn:Hy; [|stays]); run_step;
    (destruct (labelsDict st !! fName) as [lab|] eqn:Hl; [|stays]); run_step;
    (destruct (axs st !! i) as [ax|] eqn:Hax; [|stays]); do 8 run_step;
    intros [= <- <-]; right; exists d, g, x, y, lab, ax;
    (split_and!; try done);
    unfold draw, drawn_line, drawn_points, is_auto, decorate;
    rewrite Hc, !list_alter_alter_eq, <-?app_assoc;
    f_equal; try done; by rewrite (list_alter_at _ _ _ _ Hax).
Qed.

End unfolding.

(** ** Steps of a run *)

Section steps.

Context (cfg : Config) (fs : FileSystem).

Lemma for_each_cons {A} (x : A) l body st :
  for_each (x :: l) body st =
    match body x st with
    | (Ret _, st1) => for_each l body st1
    | (Raise e, st1) => (Raise e, st1)
    end.
Proof. reflexivity. Qed.


Lemma gates_steps fName gl st r st' :
  fName ∉ ignoreList cfg → gl ⊆ gate_axes →
  for_each gl (fun ig => plot_gate cfg fName ig.1 ig.2) st = (r, st') →
  rtc (step cfg) st st'.
Proof.
  intros Hi. revert st. induction gl as [|[i g] gl IH]; intros st Hgl.
  - by intros [= <- <-].
  - rewrite for_each_cons. cbn [fst snd].
    destruct (plot_gate cfg fName i g st) as [r1 st1] eqn:Hp.
    apply plot_gate_cases in Hp
        as [(-> & _)|(d & g' & x & y & lab & ax & -> & _ & _ & _ & _ & _
                       & Hl & Hax & ->)].
    + destruct r1 as [[]|e]; cbv beta iota; [|by intros [= <- <-]].
      apply IH. set_solver.
    + cbv beta iota. intros Hrest. eapply rtc_l; [|eapply IH, Hrest; set_solver].
      apply step_draw; [done|set_solver|done..].
Qed.

Lemma process_file_steps p st r st' :
  process_file cfg fs p st = (r, st') → rtc (step cfg) st st'.
Proof.
  rewrite process_file_unfold. case_bool_decide as Hi.
  { by intros [= <- <-]. }
  cbv zeta. intros Hrun.
  eapply rtc_l; [by apply (step_begin cfg st p)|].
  destruct (fs_node fs p) as [[| |v]|]; try (by injection Hrun as <- <-).
  eapply rtc_l; [by apply (step_store cfg _ p v)|].
  by eapply gates_steps.
Qed.

Lemma run_files_steps files st r st' :
  run_files cfg fs files st = (r, st') → rtc (step cfg) st st'.
Proof.
  unfold run_files. revert st.
  induction files as [|p files IH]; intros st.
  - by intros [= <- <-].
  - rewrite for_each_cons.
    destruct (process_file cfg fs p st) as [r1 st1] eqn:Hp.
    apply process_file_steps in Hp.
    destruct r1 as [[]|e]; cbv beta iota.
    + intros ?%IH. by etrans.
    + by intros [= <- <-].
Qed.

Lemma main_unfold st :
  main cfg fs st =
    match run_files cfg fs (resultFiles fs) st with
    | (Ret _, st1) => (Ret tt, show st1)
    | (Raise e, st1) => (Raise e, st1)
    end.
Proof. reflexivity. Qed.

Lemma run_reachable : rtc (step cfg) (init cfg) (run cfg fs).2.
Proof.
  unfold run. rewrite main_unfold.
  destruct (run_files cfg fs (resultFiles fs) (init cfg))
    as [r st1] eqn:Hr.
  apply run_files_steps in Hr.
  destruct r as [[]|e]; [|done].
  eapply rtc_r; [done|apply step_show].
Qed.

Lemma run_files_reachable files :
  rtc (step cfg) (init cfg) (run_files cfg fs files (init cfg)).2.
Proof.
  destruct (run_files cfg fs files (init cfg)) as [r st1] eqn:Hr.
  by apply run_files_steps in Hr.
Qed.

End steps.

(** ** Invariants of a run *)

Section invariants.

Context (cfg : Config).

Lemma reachable_ind (Inv : State → Prop) :
  Inv (init cfg) →
  (∀ st st', Inv st → step cfg st st' → Inv st') →
  ∀ st, rtc (step cfg) (init cfg) st → Inv st.
Proof.
  intros H0 Hstep. apply (rtc_ind_r Inv (init cfg)); eauto.
Qed.

Lemma labels_ok_init : labels_ok cfg (init cfg).
Proof.
  split_and!; cbn [init labelsDict trace]; [done| |set_solver].
  intros s v Hs. unfold label_of. by rewrite Hs.
Qed.

Lemma labels_ok_step st st' :
  labels_ok cfg st → step cfg st st' → labels_ok cfg st'.
Proof.
  intros (Hc & Hd & Ht) Hs.
  destruct Hs as [st p _|st p v _|st s i g x y lab ax _ _ Hl _|st];
    split_and!; cbn [begin_file store draw show labelsDict trace]; eauto.
  - intros s v Hs. case_bool_decide as Hin; [by eauto|].
    rewrite lookup_insert_ne; [by eauto|].
    intros <-. apply Hin. eauto.
  - intros s v. case_bool_decide as Hin; [by eauto|].
    destruct (decide (fName_of p = s)) as [<-|Hne].
    + rewrite lookup_insert_eq. intros [= <-].
      unfold label_of.
      destruct (cfg_labelsDict cfg !! fName_of p) eqn:E; [|done].
      exfalso. apply Hin. eauto.
    + rewrite lookup_insert_ne by done. eauto.
  - intros s g a l [?|Hin]%elem_of_app; [by eauto|]. set_solver.
  - intros s' g' a l [?|Hin]%elem_of_app; [by eauto|].
    apply elem_of_cons in Hin as [[= -> -> -> ->]|Hin]; [|set_solver].
    by apply Hd.
  - intros s g a l [?|Hin]%elem_of_app; [by eauto|]. set_solver.
Qed.

Lemma colours_ok_init : colours_ok (init cfg).
Proof. intros e s c Hin. cbn in Hin. set_solver. Qed.

Lemma colours_ok_step st st' :
  colours_ok st → step cfg st st' → colours_ok st'.
Proof.
  intros Hc Hs.
  destruct Hs as [st p _|st p v _|st s i g x y lab ax _ _ _ _|st];
    intros e s' c;
    cbn [begin_file store draw show colorsDict trace]; eauto.
  - intros [?|Hin]%elem_of_app; [by eauto|].
    intros He. exfalso.
    apply elem_of_cons in Hin as [->|Hin]; [done|].
    apply elem_of_cons in Hin as [->|Hin]; [done|set_solver].
  - intros [Hin|Hin]%elem_of_app He.
    + specialize (Hc _ _ _ Hin He).
      destruct (colorsDict st !! s) eqn:E; [done|].
      rewrite lookup_insert_ne; [done|]. by intros <-; simplify_eq.
    + assert (s' = s ∧
              c = default (cycle_color cfg (cycle_pos ax)) (colorsDict st !! s))
        as [-> ->].
      { apply elem_of_cons in Hin as [->|Hin]; [by simplify_eq/=|].
        apply elem_of_cons in Hin as [->|Hin]; [by simplify_eq/=|set_solver]. }
      unfold drawn_line. cbn [l_color].
      destruct (colorsDict st !! s) eqn:E; [done|].
      by rewrite lookup_insert_eq.
  - intros [?|Hin]%elem_of_app; [by eauto|].
    intros He. exfalso.
    apply elem_of_cons in Hin as [->|Hin]; [done|set_solver].
Qed.



Lemma sources_ok_init : sources_ok cfg (init cfg).
Proof. intros e s Hin. cbn in Hin. set_solver. Qed.

Lemma sources_ok_step st st' :
  sources_ok cfg st → step cfg st st' → sources_ok cfg st'.
Proof.
  intros Hc Hs.
  destruct Hs as [st p Hi|st p v _|st s i g x y lab ax Hi _ _ _|st];
    intros e s';
    cbn [begin_file store draw show trace]; eauto;
    (intros [?|Hin]%elem_of_app; [by eauto|]);
    repeat (apply elem_of_cons in Hin as [->|Hin]; [by intros [= <-]|]);
    set_solver.
Qed.

Lemma reachable_labels_ok st :
  rtc (step cfg) (init cfg) st → labels_ok cfg st.
Proof.
  apply reachable_ind; eauto using labels_ok_init, labels_ok_step.
Qed.

Lemma reachable_colours_ok st :
  rtc (step cfg) (init cfg) st → colours_ok st.
Proof.
  apply reachable_ind; eauto using colours_ok_init, colours_ok_step.
Qed.

Lemma reachable_sources_ok st :
  rtc (step cfg) (init cfg) st → sources_ok cfg st.
Proof.
  apply reachable_ind; eauto using sources_ok_init, sources_ok_step.
Qed.

End invariants.

(** ** Colours and labels *)

Section run_facts.

Context (cfg : Config) (fs : FileSystem).


End run_facts.



(** C6. The label of every drawn line is the value of the label-override
    map when the source's derived name is a key of it, and the derived
    name itself otherwise. *)
Theorem label_is_override_or_name (cfg : Config) (fs : FileSystem)
    (s g : string) (a : bool) (l : Line2D) :
  EvPlot s g a l ∈ trace (run cfg fs).2 →
  l_label l = match cfg_labelsDict cfg !! s with
              | Some v => v
              | None => s
              end.
Proof.
  intros Hin.
  destruct (reachable_labels_ok cfg _ (run_reachable cfg fs)) as (_ & _ & Ht).
  by apply (Ht s g a l).
Qed.

Lemma label_is_override_or_name_witness :
  "Yao" = match cfg_labelsDict cfg_demo !! "dataYao_target=1" with
          | Some v => v
          | None => "dataYao_target=1"
          end.
Proof.
  apply (label_is_override_or_name cfg_demo fs_demo "dataYao_target=1" "X" false
           {| l_xdata := xs3; l_ydata := ts3; l_label := "Yao";
              l_linewidth := 1; l_color := "#C71585" |}).
  apply (list_elem_of_lookup_2 _ 14). vm_compute. reflexivity.
Defined.

(** ** Files the run does not depend on *)

Section sorting_facts.

Lemma StronglySorted_filter {A} (R : relation A) (P : A → Prop)
    `{∀ x, Decision (P x)} l :
  StronglySorted R l → StronglySorted R (filter P l).
Proof.
  induction 1 as [|x l Hl IH Hx]; [constructor|].
  rewrite filter_cons. case_decide; [|done].
  constructor; [done|].
  apply Forall_forall. intros y [_ Hy]%list_elem_of_filter.
  rewrite Forall_forall in Hx. by apply Hx.
Qed.

Lemma merge_sort_filter (P : string → Prop) `{∀ x, Decision (P x)} l :
  merge_sort String.le (filter P l) = filter P (merge_sort String.le l).
Proof.
  apply (StronglySorted_unique String.le).
  - apply StronglySorted_merge_sort; apply _.
  - apply StronglySorted_filter, StronglySorted_merge_sort; apply _.
  - by rewrite !merge_sort_Permutation.
Qed.

Lemma path_join_inj n1 n2 :
  path +:+ "/" +:+ n1 = path +:+ "/" +:+ n2 → n1 = n2.
Proof. intros H. by simplify_eq/=. Qed.

End sorting_facts.

Section independence.

Context (cfg : Config).

Lemma process_file_ignored fs p st :
  fName_of p ∈ ignoreList cfg → process_file cfg fs p st = (Ret tt, st).
Proof. intros Hi. rewrite process_file_unfold. by rewrite bool_decide_true. Qed.

Lemma process_file_ext fs fs' p st :
  fs_node fs p = fs_node fs' p →
  process_file cfg fs p st = process_file cfg fs' p st.
Proof. intros Hn. rewrite !process_file_unfold. by rewrite Hn. Qed.

Lemma run_files_ext fs fs' files st :
  (∀ p, p ∈ files →
        fName_of p ∈ ignoreList cfg ∨ fs_node fs p = fs_node fs' p) →
  run_files cfg fs files st = run_files cfg fs' files st.
Proof.
  unfold run_files. revert st.
  induction files as [|p files IH]; intros st Hf; [done|].
  rewrite !for_each_cons.
  assert (process_file cfg fs p st = process_file cfg fs' p st) as ->.
  { destruct (Hf p) as [Hi|Hn]; [set_solver| |by apply process_file_ext].
    by rewrite !process_file_ignored. }
  destruct (process_file cfg fs' p st) as [[[]|e] st1]; [|done].
  apply IH. intros q Hq. apply Hf. set_solver.
Qed.

Lemma run_files_filter fs (P : string → Prop) `{∀ x, Decision (P x)}
    files st :
  (∀ p, p ∈ files → ¬ P p → fName_of p ∈ ignoreList cfg) →
  run_files cfg fs (filter P files) st = run_files cfg fs files st.
Proof.
  unfold run_files. revert st.
  induction files as [|p files IH]; intros st Hf; [done|].
  rewrite filter_cons. case_decide as HP.
  - rewrite !for_each_cons.
    destruct (process_file cfg fs p st) as [[[]|e] st1]; [|done].
    apply IH. intros q Hq. apply Hf. set_solver.
  - rewrite for_each_cons, process_file_ignored by (apply Hf; set_solver).
    apply IH. intros q Hq. apply Hf. set_solver.
Qed.

Lemma find_entry_remove n p es :
  p ≠ path +:+ "/" +:+ n →
  find_entry p (filter (fun e => e.1 ≠ n) es) = find_entry p es.
Proof.
  intros Hp. induction es as [|[m nd] es IH]; [done|].
  rewrite filter_cons. cbn [fst find_entry]. case_decide as Hm.
  - cbn [find_entry]. by rewrite IH.
  - subst m. by rewrite decide_False.
Qed.

Lemma find_entry_set n nd p es :
  p ≠ path +:+ "/" +:+ n →
  find_entry p
    ((fun e : string * node => if decide (e.1 = n) then (n, nd) else e) <$> es)
  = find_entry p es.
Proof.
  intros Hp. induction es as [|[m nd'] es IH]; [done|].
  rewrite fmap_cons. cbn [fst]. case_decide as Hm.
  - subst m. cbn [find_entry]. by rewrite !decide_False.
  - cbn [find_entry]. by rewrite IH.
Qed.

Lemma fs_node_remove n p fs :
  p ≠ path +:+ "/" +:+ n → fs_node (remove_file n fs) p = fs_node fs p.
Proof.
  intros Hp. unfold fs_node, remove_file. cbn [data_dir].
  destruct (data_dir fs) as [es|]; [|done]. by apply find_entry_remove.
Qed.

Lemma fs_node_set n nd p fs :
  p ≠ path +:+ "/" +:+ n → fs_node (set_file n nd fs) p = fs_node fs p.
Proof.
  intros Hp. unfold fs_node, set_file. cbn [data_dir].
  destruct (data_dir fs) as [es|]; [|done]. by apply find_entry_set.
Qed.

Lemma resultFiles_set n nd fs : resultFiles (set_file n nd fs) = resultFiles fs.
Proof.
  unfold resultFiles, listdir, set_file. cbn [data_dir].
  destruct (data_dir fs) as [es|]; [|done]. cbn [fmap option_fmap option_map].
  do 3 f_equal. rewrite <-list_fmap_compose. apply list_fmap_ext.
  intros _ [m nd'] _. cbn. by case_decide.
Qed.

Lemma resultFiles_remove n fs :
  resultFiles (remove_file n fs)
  = filter (fun p => p ≠ path +:+ "/" +:+ n) (resultFiles fs).
Proof.
  unfold resultFiles, listdir, remove_file. cbn [data_dir].
  rewrite <-merge_sort_filter. f_equal.
  destruct (data_dir fs) as [es|]; [|done]. cbn [fmap option_fmap option_map].
  unfold Glob.glob. change (Glob.ishidden "*.json") with false. cbv iota.
  induction es as [|[m nd] es IH]; [done|].
  rewrite fmap_cons, !filter_cons. cbn [fst].
  destruct (decide (m ≠ n)) as [Hm|Hm].
  - rewrite fmap_cons, !filter_cons. cbn [fst].
    destruct (decide (Glob.ishidden m = false)); [|done].
    rewrite !filter_cons.
    destruct (decide (Glob.fnmatch "*.json" m = true)); [|done].
    rewrite !fmap_cons, filter_cons, decide_True; [by rewrite IH|].
    by intros ?%path_join_inj.
  - apply dec_stable in Hm as ->.
    destruct (decide (Glob.ishidden n = false)); [|done].
    rewrite !filter_cons.
    destruct (decide (Glob.fnmatch "*.json" n = true)); [|done].
    rewrite fmap_cons, filter_cons, decide_False; [done|]. by intros [].
Qed.

End independence.

Lemma run_remove_ignored cfg n fs :
  fName_of (path +:+ "/" +:+ n) ∈ ignoreList cfg →
  run cfg (remove_file n fs) = run cfg fs.
Proof.
  intros Hi. unfold run. rewrite !main_unfold, resultFiles_remove.
  rewrite (run_files_ext cfg (remove_file n fs) fs).
  - rewrite run_files_filter; [done|].
    intros p _ Hp. apply dec_stable in Hp. by subst p.
  - intros p [Hp _]%list_elem_of_filter. right. by apply fs_node_remove.
Qed.

Lemma run_set_ignored cfg n nd fs :
  fName_of (path +:+ "/" +:+ n) ∈ ignoreList cfg →
  run cfg (set_file n nd fs) = run cfg fs.
Proof.
  intros Hi. unfold run. rewrite !main_unfold, resultFiles_set.
  rewrite (run_files_ext cfg (set_file n nd fs) fs); [done|].
  intros p _. destruct (decide (p = path +:+ "/" +:+ n)) as [->|Hp];
    [by left|right; by apply fs_node_set].
Qed.

Lemma no_event_of_ignored cfg fs e s :
  s ∈ ignoreList cfg → e ∈ trace (run cfg fs).2 → event_source e ≠ Some s.
Proof.
  intros Hi He Hs.
  by eapply (reachable_sources_ok cfg _ (run_reachable cfg fs)).
Qed.

(** C7. A file whose derived name is in the ignore set draws nothing: no
    call of the run, on any subplot, is made for that source; the loop body
    leaves the whole state, colour dictionary and colour cycles included,
    as it found it; and the run is the one the directory without that file
    gives, with the same colours for every other source. *)
Theorem ignored_file_changes_nothing (cfg : Config) (fs : FileSystem) (n : string) :
  fName_of (path +:+ "/" +:+ n) ∈ ignoreList cfg →
  (∀ e, e ∈ trace (run cfg fs).2 →
        event_source e ≠ Some (fName_of (path +:+ "/" +:+ n)))
  ∧ (∀ st, process_file cfg fs (path +:+ "/" +:+ n) st = (Ret tt, st))
  ∧ run cfg (remove_file n fs) = run cfg fs.
Proof.
  intros Hi. split_and!.
  - intros e. by apply no_event_of_ignored.
  - intros st. by apply process_file_ignored.
  - by apply run_remove_ignored.
Qed.

Lemma ignored_file_changes_nothing_witness :
  run cfg_demo (remove_file "old.json" fs_demo) = run cfg_demo fs_demo.
Proof.
  apply (ignored_file_changes_nothing cfg_demo fs_demo "old.json").
  vm_compute. repeat constructor.
Defined.

(** C9. A file whose derived name is in the ignore set is never opened:
    the run has no [open] of its path, and whatever stands behind that
    name, unreadable or malformed, the run is the same. *)
Theorem ignored_file_is_never_opened (cfg : Config) (fs : FileSystem) (n : string) :
  fName_of (path +:+ "/" +:+ n) ∈ ignoreList cfg →
  (EvOpen (path +:+ "/" +:+ n) ∉ trace (run cfg fs).2)
  ∧ (∀ nd, run cfg (set_file n nd fs) = run cfg fs)
  ∧ (∀ fs' st, process_file cfg fs' (path +:+ "/" +:+ n) st = (Ret tt, st)).
Proof.
  intros Hi. split_and!.
  - intros He. by eapply (no_event_of_ignored cfg fs _ _ Hi He).
  - intros nd. by apply run_set_ignored.
  - intros fs' st. by apply process_file_ignored.
Qed.

Lemma ignored_file_is_never_opened_witness :
  (EvOpen "benchmarking/data/old.json" ∉ trace (run cfg_demo fs_demo).2)
  ∧ (run cfg_demo fs_demo).1 = Ret tt
  ∧ (run cfg_demo (set_file "old.json" Unopenable fs_demo)).1 = Ret tt.
Proof.
  destruct (ignored_file_is_never_opened cfg_demo fs_demo "old.json")
    as (H1 & H2 & _).
  { vm_compute. repeat constructor. }
  split_and!; [exact H1|reflexivity|by rewrite H2].
Defined.

(** ** The shape of a run's trace *)

Section trace_shape.

Context (cfg : Config) (fs : FileSystem).

Lemma is_auto_draw fName i gate x y lab ax st :
  is_auto fName (draw cfg fName i gate x y lab ax st) = false.
Proof.
  unfold is_auto, draw. cbn [colorsDict].
  destruct (colorsDict st !! fName) eqn:E.
  - rewrite E. by apply bool_decide_eq_false.
  - rewrite lookup_insert_eq. by apply bool_decide_eq_false.
Qed.

Lemma gates_marks fName d gl st r st' :
  dataDict st !! fName = Some d →
  for_each gl (fun ig => plot_gate cfg fName ig.1 ig.2) st = (r, st') →
  ∃ gs, marks st' = marks st ++ gate_marks fName (is_auto fName st) gs
        ∧ gs `prefix_of` present_gates d gl.*2
        ∧ (r = Ret tt → gs = present_gates d gl.*2).
Proof.
  revert st. induction gl as [|[i g] gl IH]; intros st Hd.
  { intros [= <- <-]. exists []. by rewrite app_nil_r. }
  rewrite for_each_cons. cbn [fst snd].
  destruct (plot_gate cfg fName i g st) as [r1 st1] eqn:Hp.
  apply plot_gate_cases in Hp
      as [(-> & Habs & _)|(d' & g' & x & y & lab & ax & -> & Hd' & Hk & _ & _
                          & _ & _ & _ & ->)].
  - destruct r1 as [[]|e]; cbv beta iota.
    + destruct Habs as (d' & Hd' & Hk); [done|]. simplify_eq.
      intros (gs & ? & ? & ?)%IH; [|done]. exists gs.
      unfold present_gates. rewrite fmap_cons, filter_cons_False; [done|].
      cbn [snd]. unfold key_present. rewrite Hk. by intros [].
    + intros [= <- <-]. exists []. rewrite app_nil_r.
      split_and!; [done|apply prefix_nil|done].
  - simplify_eq. cbv beta iota.
    intros (gs & Hm & Hpre & Hret)%IH; [|done]. exists (g :: gs).
    unfold present_gates in *. rewrite fmap_cons, filter_cons_True;
      [|cbn [snd]; unfold key_present; rewrite Hk; exact I].
    cbn [snd]. split_and!.
    + rewrite Hm, is_auto_draw. unfold marks, draw. cbn [trace].
      rewrite fmap_app, <-app_assoc. done.
    + by apply prefix_cons.
    + intros ?. f_equal. by apply Hret.
Qed.

End trace_shape.

Section trace_of_run.

Context (cfg : Config) (fs : FileSystem).

Lemma plotted_gate_marks f b gs :
  plotted (gate_marks f b gs) = (fun g => (f, g)) <$> gs.
Proof.
  revert b. induction gs as [|g gs IH]; intros b; [done|].
  cbn. by rewrite IH.
Qed.

Lemma scattered_gate_marks f b gs :
  scattered (gate_marks f b gs) = (fun g => (f, g)) <$> gs.
Proof.
  revert b. induction gs as [|g gs IH]; intros b; [done|].
  cbn. by rewrite IH.
Qed.

Lemma opened_gate_marks f b gs : opened (gate_marks f b gs) = [].
Proof. revert b. induction gs as [|g gs IH]; intros b; [done|]. cbn. apply IH. Qed.

Lemma autos_gate_marks_false f gs : autos (gate_marks f false gs) = [].
Proof. induction gs as [|g gs IH]; [done|]. cbn. apply IH. Qed.

Lemma autos_gate_marks f b gs : autos (gate_marks f b gs) `sublist_of` [f].
Proof.
  destruct gs as [|g gs]; [apply sublist_nil_l|].
  destruct b; cbn; rewrite autos_gate_marks_false; [done|].
  apply sublist_nil_l.
Qed.

Lemma show_gate_marks f b gs : MShow ∉ gate_marks f b gs.
Proof.
  revert b. induction gs as [|g gs IH]; intros b; cbn; [set_solver|].
  specialize (IH false). set_solver.
Qed.

Lemma process_file_marks p st r st' :
  fName_of p ∉ ignoreList cfg →
  process_file cfg fs p st = (r, st') →
  ∃ gs, marks st'
        = marks st ++ MPrint (fName_of p) :: MOpen p
            :: gate_marks (fName_of p) (is_auto (fName_of p) st) gs
        ∧ gs `prefix_of` file_gates fs p
        ∧ (r = Ret tt → gs = file_gates fs p).
Proof.
  intros Hi. rewrite process_file_unfold, bool_decide_false by done.
  cbv zeta. unfold file_gates.
  assert (marks (begin_file (fName_of p) p st)
          = marks st ++ [MPrint (fName_of p); MOpen p]) as Hb.
  { unfold marks, begin_file. cbn [trace]. by rewrite fmap_app. }
  destruct (fs_node fs p) as [[| |d]|];
    try (intros [= <- <-]; exists []; rewrite Hb;
         split_and!; [done|done|done]).
  intros Hg. eapply (gates_marks cfg _ d) in Hg as (gs & Hm & Hpre & Hret);
    [|by apply lookup_insert_eq].
  exists gs. split_and!; [|done..].
  rewrite Hm. change (marks (store ?f ?v ?s)) with (marks s).
  rewrite Hb, <-app_assoc. done.
Qed.

Lemma kept_cons_ignored p files :
  fName_of p ∈ ignoreList cfg → kept cfg (p :: files) = kept cfg files.
Proof. intros. unfold kept. rewrite filter_cons_False; [done|]. by intros []. Qed.

Lemma kept_cons p files :
  fName_of p ∉ ignoreList cfg → kept cfg (p :: files) = p :: kept cfg files.
Proof. intros. unfold kept. by rewrite filter_cons_True. Qed.

Lemma run_files_marks files st r st' :
  run_files cfg fs files st = (r, st') →
  ∃ T, marks st' = marks st ++ T ∧ shape_ok cfg fs files r T.
Proof.
  unfold run_files. revert st.
  induction files as [|p files IH]; intros st.
  { intros [= <- <-]. exists []. rewrite app_nil_r. split; [done|].
    split_and!; try done. set_solver. }
  rewrite for_each_cons.
  destruct (decide (fName_of p ∈ ignoreList cfg)) as [Hi|Hi].
  { rewrite process_file_ignored by done.
    intros (T & HT & Hs)%IH. exists T. split; [done|].
    unfold shape_ok, expected_pairs in *. by rewrite kept_cons_ignored. }
  destruct (process_file cfg fs p st) as [r1 st1] eqn:Hp.
  apply process_file_marks in Hp as (gs & Hm & Hpre & Hret); [|done].
  set (f := fName_of p) in *.
  set (tf := MPrint f :: MOpen p :: gate_marks f (is_auto f st) gs) in *.
  assert (plotted tf = (fun g => (f, g)) <$> gs) as Hpl
    by apply plotted_gate_marks.
  assert (scattered tf = (fun g => (f, g)) <$> gs) as Hsc
    by apply scattered_gate_marks.
  assert (opened tf = [p]) as Hop.
  { unfold tf. cbn. by rewrite opened_gate_marks. }
  assert (autos tf `sublist_of` [f]) as Hau by apply autos_gate_marks.
  assert (MShow ∉ tf) as Hsh.
  { unfold tf. pose proof (show_gate_marks f (is_auto f st) gs). set_solver. }
  unfold shape_ok, expected_pairs. rewrite kept_cons by done.
  rewrite fmap_cons, concat_cons. fold (expected_pairs cfg fs files).
  fold f. destruct r1 as [[]|e]; cbv beta iota.
  - rewrite Hret in * by done.
    intros (T & HT & H1 & H2 & H3 & H4 & H5 & H6 & H7)%IH.
    exists (tf ++ T). split; [by rewrite HT, Hm, <-app_assoc|].
    unfold plotted, scattered, opened, autos in *. rewrite !omap_app.
    rewrite Hpl, Hsc, Hop. split_and!.
    + by apply prefix_app.
    + intros ?. f_equal. by apply H2.
    + by rewrite H3.
    + by apply (prefix_app [p]).
    + intros ?. cbn. f_equal. by apply H5.
    + rewrite fmap_app. by apply sublist_app.
    + set_solver.
  - intros [= <- <-]. exists tf. split; [done|].
    rewrite Hpl, Hsc, Hop. split_and!; try done.
    + apply prefix_app_r. destruct Hpre as [k ->].
      exists ((fun g => (f, g)) <$> k). by rewrite fmap_app.
    + by apply (prefix_cons p [] _), prefix_nil.
Qed.

End trace_of_run.

(** ** Which series are drawn *)


Section drawn_pairs.

Context (cfg : Config) (fs : FileSystem).






(** The marks of a whole run: those of the loop, and the final [show]
    when the loop ends without an exception. *)
Lemma run_marks :
  ∃ T, shape_ok cfg fs (resultFiles fs) (run cfg fs).1 T
       ∧ marks (run cfg fs).2
         = T ++ (if (run cfg fs).1 is Ret _ then [MShow] else []).
Proof.
  unfold run. rewrite main_unfold.
  destruct (run_files cfg fs (resultFiles fs) (init cfg)) as [r st1] eqn:Hr.
  apply run_files_marks in Hr as (T & HT & Hs). exists T.
  destruct r as [[]|e]; cbn [fst snd]; (split; [done|]).
  - unfold marks, show in *. cbn [trace]. rewrite fmap_app, HT. done.
  - by rewrite HT, app_nil_r.
Qed.


End drawn_pairs.




(** ** The load step *)

Section load_step.

Context (cfg : Config) (fs : FileSystem).






Lemma run_raise_no_show e :
  (run cfg fs).1 = Raise e → EvShow ∉ trace (run cfg fs).2.
Proof.
  intros Hr Hin.
  destruct (run_marks cfg fs) as (T & (_ & _ & _ & _ & _ & _ & Hs) & Hm).
  rewrite Hr, app_nil_r in Hm. apply Hs. rewrite <-Hm.
  unfold marks. apply list_elem_of_fmap. by exists EvShow.
Qed.

End load_step.




(** ** The subplots after the run *)

Section subplots.

Context (cfg : Config).









End subplots.




(** ** The order of processing *)

Section order.

Lemma string_le_cons c s1 s2 :
  String.le (String c s1) (String c s2) ↔ String.le s1 s2.
Proof.
  unfold String.le, String.leb. cbn [String.compare].
  assert (Ascii.compare c c = Eq) as ->; [|done].
  unfold Ascii.compare. apply N.compare_refl.
Qed.

Lemma string_le_app pre s1 s2 :
  String.le s1 s2 → String.le (pre +:+ s1) (pre +:+ s2).
Proof.
  intros H. induction pre as [|c pre IH]; [done|].
  cbn [String.append]. by apply string_le_cons.
Qed.

Lemma Sorted_fmap_mono {A B} (R : relation A) (R' : relation B)
    (f : A → B) l :
  (∀ x y, R x y → R' (f x) (f y)) →
  StronglySorted R l → StronglySorted R' (f <$> l).
Proof.
  intros Hf. induction 1 as [|x l Hl IH Hx]; [constructor|].
  rewrite fmap_cons. constructor; [done|].
  rewrite Forall_fmap. eapply Forall_impl; [done|]. intros y. apply Hf.
Qed.

Lemma merge_sort_fmap_path names :
  merge_sort String.le ((fun n => path +:+ "/" +:+ n) <$> names)
  = (fun n => path +:+ "/" +:+ n) <$> merge_sort String.le names.
Proof.
  apply (StronglySorted_unique String.le).
  - apply StronglySorted_merge_sort; apply _.
  - apply (Sorted_fmap_mono String.le).
    + intros x y Hxy. by apply string_le_app, string_le_app.
    + apply StronglySorted_merge_sort; apply _.
  - by rewrite !merge_sort_Permutation.
Qed.

End order.

(** C5. The files found are processed in lexicographically sorted order:
    the list the loop runs over is the sorted rearrangement of what glob
    returned, it is the sorted list of file names behind the directory
    path, the files opened are, in this order, those of that list which
    are not ignored (all of them when the run ends without exception), and
    the sources that take a colour from a colour cycle do so in the order
    in which their files are opened. *)
Theorem files_processed_in_sorted_order (cfg : Config) (fs : FileSystem) :
  Sorted String.le (resultFiles fs)
  ∧ resultFiles fs ≡ₚ Glob.glob path "*.json" (listdir fs)
  ∧ (∃ names, resultFiles fs = (fun n => path +:+ "/" +:+ n) <$> names
              ∧ Sorted String.le names)
  ∧ opened (marks (run cfg fs).2) `prefix_of` kept cfg (resultFiles fs)
  ∧ ((run cfg fs).1 = Ret tt →
     opened (marks (run cfg fs).2) = kept cfg (resultFiles fs))
  ∧ autos (marks (run cfg fs).2)
      `sublist_of` (fName_of <$> opened (marks (run cfg fs).2)).
Proof.
  split_and!.
  - apply Sorted_merge_sort; apply _.
  - apply merge_sort_Permutation.
  - unfold resultFiles, Glob.glob.
    destruct (listdir fs) as [ns|].
    + eexists. split; [apply merge_sort_fmap_path|].
      apply Sorted_merge_sort; apply _.
    + exists []. split; [done|constructor].
  - destruct (run_marks cfg fs) as (T & (_ & _ & _ & H4 & _) & ->).
    unfold opened in *. rewrite omap_app.
    destruct (run cfg fs).1; cbn; by rewrite app_nil_r.
  - intros Hr.
    destruct (run_marks cfg fs) as (T & (_ & _ & _ & _ & H5 & _) & ->).
    unfold opened in *. rewrite omap_app, Hr. cbn. rewrite app_nil_r.
    by apply H5.
  - destruct (run_marks cfg fs) as (T & (_ & _ & _ & _ & _ & H6 & _) & ->).
    unfold opened, autos in *. rewrite !omap_app.
    destruct (run cfg fs).1; cbn; by rewrite !app_nil_r.
Qed.

Lemma files_processed_in_sorted_order_witness :
  (run cfg_demo fs_demo).1 = Ret tt
  ∧ opened (marks (run cfg_demo fs_demo).2)
    = ["benchmarking/data/a.json"; "benchmarking/data/b.json";
       "benchmarking/data/dataYao_target=1.json"].
Proof.
  split; [reflexivity|].
  destruct (files_processed_in_sorted_order cfg_demo fs_demo)
    as (_ & _ & _ & _ & H & _).
  rewrite H; reflexivity.
Defined.

(** * Further properties of the script *)

(** ** One gate of one file *)

Section one_gate.

Context (cfg : Config) (fName : string) (i : nat) (gate : string).

Ltac enter :=
  unfold plot_gate, series, ax_plot, ax_scatter, get_axes, on_axes, emit,
    set_color, subscript, lift, modify, bind, get, ret, raise.

Lemma plot_gate_no_record st :
  dataDict st !! fName = None →
  plot_gate cfg fName i gate st = (Raise (KeyError fName), st).
Proof. intros Hd. enter. by rewrite Hd. Qed.

Lemma plot_gate_has_key_raise st d e :
  dataDict st !! fName = Some d → has_key d gate = Raise e →
  plot_gate cfg fName i gate st = (Raise e, st).
Proof. intros Hd Hk. enter. by rewrite Hd, Hk. Qed.


Lemma plot_gate_nqubits_raise st d e0 ex :
  dataDict st !! fName = Some d → has_key d gate = Ret true →
  getitem d gate = Ret e0 → getitem e0 "nqubits" = Raise ex →
  plot_gate cfg fName i gate st = (Raise ex, st).
Proof.
  intros Hd Hk Hg Hx. enter. rewrite Hd, Hk.
  destruct (colorsDict st !! fName) eqn:Hc; by do 3 run_step.
Qed.

Lemma plot_gate_times_raise st d e0 x ex :
  dataDict st !! fName = Some d → has_key d gate = Ret true →
  getitem d gate = Ret e0 → getitem e0 "nqubits" = Ret x →
  getitem e0 "times" = Raise ex →
  plot_gate cfg fName i gate st = (Raise ex, st).
Proof.
  intros Hd Hk Hg Hx Hy. enter. rewrite Hd, Hk.
  destruct (colorsDict st !! fName) eqn:Hc; by do 4 run_step.
Qed.


End one_gate.

(** X1. What a gate entry of the wrong kind does: when the gate is a key
    of the record but its entry is not an object, the body of the gate loop
    raises [TypeError]; when the entry is an object without the key
    "nqubits" it raises [KeyError] for that key, and with "nqubits" but
    without "times" it raises [KeyError] for "times".  In each case the
    state is left as it was: nothing is drawn for that gate. *)
Theorem gate_entry_errors (cfg : Config) (fName : string) (i : nat)
    (gate : string) (st : State) (fields : list (string * json)) (e0 : json) :
  dataDict st !! fName = Some (JObj fields) →
  assoc gate fields = Some e0 →
  ((∀ f, e0 ≠ JObj f) →
   plot_gate cfg fName i gate st = (Raise TypeError, st))
  ∧ (∀ f, e0 = JObj f → assoc "nqubits" f = None →
          plot_gate cfg fName i gate st = (Raise (KeyError "nqubits"), st))
  ∧ (∀ f, e0 = JObj f → is_Some (assoc "nqubits" f) →
          assoc "times" f = None →
          plot_gate cfg fName i gate st = (Raise (KeyError "times"), st)).
Proof.
  intros Hd Hg.
  assert (has_key (JObj fields) gate = Ret true) as Hk.
  { cbn. rewrite Hg. by rewrite bool_decide_true. }
  assert (getitem (JObj fields) gate = Ret e0) as Hgi by (cbn; by rewrite Hg).
  split_and!.
  - intros Hno. eapply plot_gate_nqubits_raise; [done..|].
    destruct e0; try done. by destruct (Hno fields0).
  - intros f -> Hx. eapply plot_gate_nqubits_raise; [done..|].
    cbn. by rewrite Hx.
  - intros f -> [x Hx] Hy. eapply plot_gate_times_raise; [done..| |].
    + cbn. by rewrite Hx.
    + cbn. by rewrite Hy.
Qed.

Lemma gate_entry_errors_witness :
  plot_gate script_config "a" 0 "X"
    (store "a" (JObj [("X", JInt 5)]) (init script_config))
  = (Raise TypeError, store "a" (JObj [("X", JInt 5)]) (init script_config))
  ∧ plot_gate script_config "a" 0 "X"
      (store "a" (JObj [("X", JObj [("nqubits", xs3)])]) (init script_config))
    = (Raise (KeyError "times"),
       store "a" (JObj [("X", JObj [("nqubits", xs3)])]) (init script_config)).
Proof.
  split.
  - destruct (gate_entry_errors script_config "a" 0 "X"
                (store "a" (JObj [("X", JInt 5)]) (init script_config))
                [("X", JInt 5)] (JInt 5)) as (H & _);
      [apply lookup_insert_eq|reflexivity|].
    apply H. discriminate.
  - destruct (gate_entry_errors script_config "a" 0 "X"
                (store "a" (JObj [("X", JObj [("nqubits", xs3)])])
                   (init script_config))
                [("X", JObj [("nqubits", xs3)])] (JObj [("nqubits", xs3)]))
      as (_ & _ & H); [apply lookup_insert_eq|reflexivity|].
    apply (H [("nqubits", xs3)]); [reflexivity|by exists xs3|reflexivity].
Defined.

(** ** Files that stop the run *)

Section stopping.

Context (cfg : Config) (fs : FileSystem).

Lemma run_files_raises_at files p st :
  p ∈ files →
  (∀ st0, ∃ e, (process_file cfg fs p st0).1 = Raise e) →
  ∃ e, (run_files cfg fs files st).1 = Raise e.
Proof.
  intros Hp Hraise. unfold run_files. revert st.
  induction files as [|q files IH]; intros st; [by apply elem_of_nil in Hp|].
  rewrite for_each_cons.
  destruct (process_file cfg fs q st) as [[[]|e] st1] eqn:Hq;
    cbv beta iota; [|by eauto].
  apply elem_of_cons in Hp as [->|Hp]; [|by apply IH].
  destruct (Hraise st) as [e He]. rewrite Hq in He. done.
Qed.

Lemma run_raises_at p :
  p ∈ resultFiles fs →
  (∀ st0, ∃ e, (process_file cfg fs p st0).1 = Raise e) →
  ∃ e, (run cfg fs).1 = Raise e.
Proof.
  intros Hp Hraise.
  destruct (run_files_raises_at _ p (init cfg) Hp Hraise) as [e He].
  exists e. unfold run. rewrite main_unfold.
  destruct (run_files cfg fs (resultFiles fs) (init cfg)) as [r st1].
  cbn [fst] in He. by subst r.
Qed.

Lemma process_file_unopenable p st :
  fName_of p ∉ ignoreList cfg →
  fs_node fs p = Some Unopenable ∨ fs_node fs p = None →
  process_file cfg fs p st
  = (Raise (OSError p), begin_file (fName_of p) p st).
Proof.
  intros Hi Hn. rewrite process_file_unfold, bool_decide_false by done.
  by destruct Hn as [-> | ->].
Qed.

Lemma process_file_not_object p d st :
  fName_of p ∉ ignoreList cfg → fs_node fs p = Some (Json d) →
  (∀ f, d ≠ JObj f) →
  process_file cfg fs p st
  = (Raise AttributeError,
     store (fName_of p) d (begin_file (fName_of p) p st)).
Proof.
  intros Hi Hn Hd. rewrite process_file_unfold, bool_decide_false, Hn by done.
  cbv zeta. change gate_axes with ((0, "X") :: tail gate_axes).
  rewrite for_each_cons. cbn [fst snd].
  rewrite (plot_gate_has_key_raise _ _ _ _ _ d AttributeError); [done| |].
  - apply lookup_insert_eq.
  - destruct d; try done. by destruct (Hd fields).
Qed.

Lemma all_ignored_run_files files st :
  kept cfg files = [] → run_files cfg fs files st = (Ret tt, st).
Proof.
  unfold run_files. induction files as [|p files IH]; [done|].
  destruct (decide (fName_of p ∈ ignoreList cfg)) as [Hi|Hi].
  - rewrite kept_cons_ignored by done. intros Hk.
    rewrite for_each_cons, process_file_ignored by done. by apply IH.
  - by rewrite kept_cons.
Qed.

End stopping.

(** X2. With nothing to process the run ends well and shows the empty
    grid: when no file of the directory matches the pattern or every
    matching file is ignored, and in particular when the data directory
    does not exist (glob then returns the empty list), the outcome is the
    initial state with the figure shown, no file opened, nothing
    drawn. *)
Theorem nothing_to_process (cfg : Config) (fs : FileSystem) :
  (kept cfg (resultFiles fs) = [] → run cfg fs = (Ret tt, show (init cfg)))
  ∧ (data_dir fs = None → run cfg fs = (Ret tt, show (init cfg))).
Proof.
  assert (kept cfg (resultFiles fs) = [] →
          run cfg fs = (Ret tt, show (init cfg))) as H.
  { intros Hk. unfold run. rewrite main_unfold.
    by rewrite all_ignored_run_files. }
  split; [done|]. intros Hd. apply H.
  unfold resultFiles, listdir. by rewrite Hd.
Qed.

Lemma nothing_to_process_witness :
  run script_config fs_notes = (Ret tt, show (init script_config))
  ∧ run script_config {| data_dir := None |}
    = (Ret tt, show (init script_config)).
Proof.
  split.
  - destruct (nothing_to_process script_config fs_notes) as [H _].
    apply H. reflexivity.
  - destruct (nothing_to_process script_config {| data_dir := None |})
      as [_ H].
    apply H. reflexivity.
Defined.

(** X3. A file that is not ignored and cannot be opened stops the run:
    the loop body raises [OSError] for its path, after the label entry and
    the printing of the name and before any record is stored; the run ends
    with an exception and the figure is not shown. *)
Theorem unopenable_file_aborts (cfg : Config) (fs : FileSystem) (p : string) :
  p ∈ resultFiles fs → fName_of p ∉ ignoreList cfg →
  fs_node fs p = Some Unopenable →
  (∀ st, process_file cfg fs p st
         = (Raise (OSError p), begin_file (fName_of p) p st))
  ∧ (∃ e, (run cfg fs).1 = Raise e)
  ∧ EvShow ∉ trace (run cfg fs).2.
Proof.
  intros Hp Hi Hn.
  assert (∀ st, process_file cfg fs p st
                = (Raise (OSError p), begin_file (fName_of p) p st)) as Hpf.
  { intros st. apply process_file_unopenable; auto. }
  assert (∃ e, (run cfg fs).1 = Raise e) as [e He].
  { apply (run_raises_at cfg fs p Hp). intros st0. rewrite Hpf. eauto. }
  split_and!; [done|by eauto|by eapply run_raise_no_show].
Qed.

(** X4. A file that is valid JSON but whose top-level value is not an
    object (a list, a number, a string, null) stops the run at the first
    gate: the record is stored, then the test for the gate key raises
    [AttributeError], and nothing is drawn for that file. *)
Theorem record_not_object_aborts (cfg : Config) (fs : FileSystem)
    (p : string) (d : json) :
  p ∈ resultFiles fs → fName_of p ∉ ignoreList cfg →
  fs_node fs p = Some (Json d) → (∀ f, d ≠ JObj f) →
  (∀ st, process_file cfg fs p st
         = (Raise AttributeError,
            store (fName_of p) d (begin_file (fName_of p) p st)))
  ∧ (∃ e, (run cfg fs).1 = Raise e).
Proof.
  intros Hp Hi Hn Hd.
  assert (∀ st, process_file cfg fs p st
                = (Raise AttributeError,
                   store (fName_of p) d (begin_file (fName_of p) p st)))
    as Hpf by (intros st; by apply process_file_not_object).
  split; [done|].
  apply (run_raises_at cfg fs p Hp). intros st0. rewrite Hpf. eauto.
Qed.

Lemma unopenable_file_aborts_witness :
  (∃ e, (run script_config fs_locked).1 = Raise e)
  ∧ EvShow ∉ trace (run script_config fs_locked).2.
Proof.
  destruct (unopenable_file_aborts script_config fs_locked
              "benchmarking/data/a.json") as (_ & H1 & H2).
  - vm_compute. repeat constructor.
  - vm_compute. intros Hin. inversion Hin.
  - reflexivity.
  - split; [exact H1|exact H2].
Defined.

Lemma record_not_object_aborts_witness :
  ∃ e, (run script_config fs_list).1 = Raise e.
Proof.
  destruct (record_not_object_aborts script_config fs_list
              "benchmarking/data/a.json" (JArr [JInt 1; JInt 2])) as (_ & H).
  - vm_compute. repeat constructor.
  - vm_compute. intros Hin. inversion Hin.
  - reflexivity.
  - discriminate.
  - exact H.
Defined.

Section first_failure.

Context (cfg : Config) (fs : FileSystem).


Lemma process_file_opened p st r st' :
  fName_of p ∉ ignoreList cfg →
  process_file cfg fs p st = (r, st') →
  ∃ T, marks st' = marks st ++ T ∧ opened T = [p].
Proof.
  intros Hi Hp. apply process_file_marks in Hp as (gs & Hm & _); [|done].
  eexists. split; [exact Hm|]. cbn. by rewrite opened_gate_marks.
Qed.


End first_failure.





(** ** Records the script gets through *)

Section completion.

Context (cfg : Config) (fs : FileSystem).




End completion.



(** ** The dictionaries and the artists at the end *)

Section dictionaries.

Context (cfg : Config).

Lemma labels_exact_init : labels_exact cfg (init cfg).
Proof.
  intros s v. cbn [init labelsDict trace]. split; [by left|].
  intros [?|(_ & _ & Hin)]; [done|]. by apply elem_of_nil in Hin.
Qed.

Lemma labels_exact_same st st' :
  labelsDict st' = labelsDict st →
  (∀ s, EvPrint s ∈ trace st' ↔ EvPrint s ∈ trace st) →
  labels_exact cfg st → labels_exact cfg st'.
Proof.
  intros Hd Ht Hl s v. rewrite Hd, (Hl s v), (Ht s). done.
Qed.

Lemma labels_exact_step st st' :
  labels_exact cfg st → step cfg st st' → labels_exact cfg st'.
Proof.
  intros Hl Hs.
  destruct Hs as [st p _|st p d _|st f i g x y lab ax _ _ _ _|st];
    try (apply (labels_exact_same st); [done| |done];
         intros s; cbn [store draw show trace]; set_solver).
  intros s v. cbn [begin_file labelsDict trace].
  assert (∀ s0, EvPrint s0 ∈ trace st ++ [EvPrint (fName_of p); EvOpen p]
                ↔ EvPrint s0 ∈ trace st ∨ s0 = fName_of p) as Hin.
  { intros s0. rewrite elem_of_app, !elem_of_cons, elem_of_nil.
    naive_solver. }
  rewrite Hin. case_bool_decide as Hsome.
  - rewrite (Hl s v). split; [naive_solver|].
    intros [?|(Hc & Hv & [?|Hs])]; [by left|by right|]. subst s v.
    destruct Hsome as [w Hw]. pose proof Hw as Hw'.
    apply Hl in Hw' as [?|(_ & Hw2 & ?)]; [congruence|]. subst w. by right.
  - assert (labelsDict st !! fName_of p = None) as Hnone.
    { destruct (labelsDict st !! fName_of p) eqn:E; [|done].
      destruct Hsome. eauto. }
    assert (cfg_labelsDict cfg !! fName_of p = None) as Hcfg.
    { destruct (cfg_labelsDict cfg !! fName_of p) as [w|] eqn:E; [|done].
      assert (labelsDict st !! fName_of p = Some w) by (apply Hl; by left).
      congruence. }
    destruct (decide (s = fName_of p)) as [->|Hne].
    + rewrite lookup_insert_eq. split.
      * intros [= <-]. right. auto.
      * intros [?|(_ & -> & _)]; [congruence|done].
    + rewrite lookup_insert_ne by done. rewrite (Hl s v). naive_solver.
Qed.

Lemma reachable_labels_exact st :
  rtc (step cfg) (init cfg) st → labels_exact cfg st.
Proof.
  apply reachable_ind; eauto using labels_exact_init, labels_exact_step.
Qed.

End dictionaries.

(** X8. At the end of a run, whether it ended well or not, the label
    dictionary holds exactly the override entries it started with, none of
    them changed, and [name ↦ name] for every source without override
    whose file the loop has begun (its name was printed). *)
Theorem labelsDict_at_the_end (cfg : Config) (fs : FileSystem) (s v : string) :
  labelsDict (run cfg fs).2 !! s = Some v ↔
  cfg_labelsDict cfg !! s = Some v
  ∨ (cfg_labelsDict cfg !! s = None ∧ v = s
     ∧ EvPrint s ∈ trace (run cfg fs).2).
Proof. apply reachable_labels_exact, run_reachable. Qed.

Section colour_dictionary.

Context (cfg : Config).

Lemma colours_exact_init : colours_exact cfg (init cfg).
Proof.
  split_and!; cbn [init colorsDict trace]; try done.
  - intros s c ?. by left.
  - intros s g l Hin. by apply elem_of_nil in Hin.
  - constructor.
  - intros s Hin. by apply elem_of_nil in Hin.
Qed.

Lemma labelsDict_at_the_end_witness :
  cfg_labelsDict cfg_demo !! "a" = Some "a"
  ∨ (cfg_labelsDict cfg_demo !! "a" = None ∧ "a" = "a"
     ∧ EvPrint "a" ∈ trace (run cfg_demo fs_demo).2).
Proof.
  apply (labelsDict_at_the_end cfg_demo fs_demo "a" "a"). reflexivity.
Defined.

(** A step that leaves the colours alone and adds no [plot] call. *)
Lemma colours_exact_same st st' t :
  colorsDict st' = colorsDict st → trace st' = trace st ++ t →
  (∀ s g a l, EvPlot s g a l ∉ t) →
  colours_exact cfg st → colours_exact cfg st'.
Proof.
  intros Hd Ht Hno (H1 & H2 & H3 & H4 & H5).
  assert (∀ s g a l, EvPlot s g a l ∈ trace st' ↔ EvPlot s g a l ∈ trace st)
    as Hin.
  { intros s g a l. rewrite Ht, elem_of_app. specialize (Hno s g a l).
    tauto. }
  assert (autos (marks st') = autos (marks st)) as Hau.
  { unfold autos, marks. rewrite Ht, fmap_app, omap_app.
    rewrite <-(app_nil_r (omap _ (mark_of <$> trace st))) at 2. f_equal.
    clear Ht. induction t as [|e t IH]; [done|].
    assert (∀ s g a l, EvPlot s g a l ∉ t) as Hno'.
    { intros s g a l ?. apply (Hno s g a l). by right. }
    destruct e; cbn; try (by apply IH).
    destruct (Hno fName gate auto l). by left. }
  split_and!.
  - by rewrite Hd.
  - rewrite Hd. intros s c Hs.
    destruct (H2 s c Hs) as [?|(? & g & l & ? & ?)]; [by left|right].
    split; [done|]. exists g, l. by rewrite Hin.
  - intros s g l. rewrite Hin. apply H3.
  - by rewrite Hau.
  - rewrite Hau, Hd. apply H5.
Qed.

Lemma colours_exact_step st st' :
  colours_exact cfg st → step cfg st st' → colours_exact cfg st'.
Proof.
  intros Hc Hs.
  destruct Hs as [st p _|st p d _|st f i g x y lab ax _ _ _ _|st].
  - eapply (colours_exact_same st); [done|done| |done].
    intros s g a l Hin.
    repeat (apply elem_of_cons in Hin as [?|Hin]; [done|]).
    by apply elem_of_nil in Hin.
  - eapply (colours_exact_same st _ []); [done|by rewrite app_nil_r| |done].
    intros s g a l Hin. by apply elem_of_nil in Hin.
  - destruct Hc as (H1 & H2 & H3 & H4 & H5).
    assert (marks (draw cfg f i g x y lab ax st)
            = marks st ++ [MPlot f g (is_auto f st); MScatter f g]) as Hm.
    { unfold marks, draw. cbn [trace]. by rewrite fmap_app. }
    assert (∀ s g' a l,
      EvPlot s g' a l ∈ trace (draw cfg f i g x y lab ax st) ↔
      EvPlot s g' a l ∈ trace st
      ∨ (s = f ∧ g' = g ∧ a = is_auto f st
         ∧ l = drawn_line cfg f x y lab ax st)) as Hin.
    { intros s g' a l. unfold draw. cbn [trace].
      rewrite elem_of_app, !elem_of_cons, elem_of_nil. naive_solver. }
    unfold is_auto in *.
    destruct (colorsDict st !! f) as [c0|] eqn:Hf.
    + rewrite bool_decide_false in * by done.
      assert (colorsDict (draw cfg f i g x y lab ax st) = colorsDict st)
        as Hcd by (unfold draw; cbn [colorsDict]; by rewrite Hf).
      split_and!; rewrite ?Hm, ?Hcd.
      * done.
      * intros s c Hs. destruct (H2 s c Hs) as [?|(? & g' & l & ? & ?)];
          [by left|right]. split; [done|]. exists g', l.
        split; [|done]. apply Hin. by left.
      * intros s g' l [?|(_ & _ & ? & _)]%Hin; [by eapply H3|done].
      * unfold autos in *. rewrite omap_app. cbn. by rewrite app_nil_r.
      * unfold autos in *. rewrite omap_app. cbn. by rewrite app_nil_r.
    + rewrite bool_decide_true in * by done.
      assert (cfg_colorsDict cfg !! f = None) as Hcf.
      { destruct (cfg_colorsDict cfg !! f) as [c|] eqn:E; [|done].
        apply H1 in E. congruence. }
      assert (colorsDict (draw cfg f i g x y lab ax st)
              = <[f := l_color (drawn_line cfg f x y lab ax st)]>
                  (colorsDict st))
        as Hcd by (unfold draw; cbn [colorsDict]; by rewrite Hf).
      split_and!; rewrite ?Hm, ?Hcd.
      * intros s c Hs. rewrite lookup_insert_ne; [by apply H1|].
        intros <-. congruence.
      * intros s c. destruct (decide (s = f)) as [->|Hne].
        -- rewrite lookup_insert_eq. intros [= <-]. right. split; [done|].
           exists g, (drawn_line cfg f x y lab ax st). split; [|done].
           apply Hin. by right.
        -- rewrite lookup_insert_ne by done. intros Hs.
           destruct (H2 s c Hs) as [?|(? & g' & l & ? & ?)]; [by left|right].
           split; [done|]. exists g', l. split; [|done]. apply Hin. by left.
      * intros s g' l [?|(-> & _)]%Hin; [by eapply H3|done].
      * unfold autos in *. rewrite omap_app. cbn.
        apply NoDup_app. split_and!; [done| |apply NoDup_singleton].
        intros s Hs ->%list_elem_of_singleton.
        apply H5 in Hs as [c Hs]. congruence.
      * unfold autos in *. rewrite omap_app. cbn.
        intros s [Hs| ->%list_elem_of_singleton]%elem_of_app.
        -- destruct (decide (s = f)) as [->|Hne];
             [rewrite lookup_insert_eq; eauto|].
           rewrite lookup_insert_ne by done. by apply H5.
        -- rewrite lookup_insert_eq. eauto.
  - eapply (colours_exact_same st); [done|done| |done].
    intros s g a l Hin.
    repeat (apply elem_of_cons in Hin as [?|Hin]; [done|]).
    by apply elem_of_nil in Hin.
Qed.

Lemma reachable_colours_exact st :
  rtc (step cfg) (init cfg) st → colours_exact cfg st.
Proof.
  apply reachable_ind; eauto using colours_exact_init, colours_exact_step.
Qed.

End colour_dictionary.

(** X9. At the end of a run the colour dictionary holds exactly the
    override entries it started with, unchanged, and for every source
    without override that was drawn the colour of its one line that took
    its colour from a cycle. *)
Theorem colorsDict_at_the_end (cfg : Config) (fs : FileSystem) (s c : string) :
  colorsDict (run cfg fs).2 !! s = Some c ↔
  cfg_colorsDict cfg !! s = Some c
  ∨ (cfg_colorsDict cfg !! s = None
     ∧ ∃ g l, EvPlot s g true l ∈ trace (run cfg fs).2 ∧ l_color l = c).
Proof.
  destruct (reachable_colours_exact cfg _ (run_reachable cfg fs))
    as (H1 & H2 & _).
  split; [apply H2|]. intros [?|(_ & g & l & Hin & <-)]; [by apply H1|].
  by eapply (reachable_colours_ok cfg _ (run_reachable cfg fs)).
Qed.

Lemma colorsDict_at_the_end_witness :
  cfg_colorsDict cfg_demo !! "b" = Some "#1f77b4"
  ∨ (cfg_colorsDict cfg_demo !! "b" = None
     ∧ ∃ g l, EvPlot "b" g true l ∈ trace (run cfg_demo fs_demo).2
              ∧ l_color l = "#1f77b4").
Proof.
  apply (colorsDict_at_the_end cfg_demo fs_demo "b" "#1f77b4"). reflexivity.
Defined.

(** X10. A source with an explicit colour is drawn in that colour and in
    no other: each of its lines and scatter overlays carries the override,
    and none of its [plot] calls takes a colour from a cycle. *)
Theorem override_colour_is_used (cfg : Config) (fs : FileSystem)
    (s c : string) :
  cfg_colorsDict cfg !! s = Some c →
  (∀ e c', e ∈ trace (run cfg fs).2 → event_colour e = Some (s, c') → c' = c)
  ∧ (∀ g a l, EvPlot s g a l ∈ trace (run cfg fs).2 → a = false).
Proof.
  intros Hs.
  destruct (reachable_colours_exact cfg _ (run_reachable cfg fs))
    as (H1 & _ & H3 & _).
  split.
  - intros e c' Hin He.
    pose proof (reachable_colours_ok cfg _ (run_reachable cfg fs) _ _ _ Hin He).
    apply H1 in Hs. congruence.
  - intros g [] l Hin; [|done]. apply H3 in Hin. congruence.
Qed.

Lemma override_colour_is_used_witness :
  ∃ e c', trace (run cfg_demo fs_demo).2 !! 14 = Some e
          ∧ event_colour e = Some ("dataYao_target=1", c')
          ∧ c' = "#C71585".
Proof.
  eexists _, _. split; [reflexivity|]. split; [reflexivity|].
  destruct (override_colour_is_used cfg_demo fs_demo "dataYao_target=1"
              "#C71585") as [H _]; [reflexivity|].
  eapply H; [apply (list_elem_of_lookup_2 _ 14)|]; reflexivity.
Defined.

(** X11. A source takes a colour from a colour cycle at most once in a
    run: the sources of the [plot] calls made without a colour are pairwise
    distinct. *)
Theorem cycle_colour_taken_once (cfg : Config) (fs : FileSystem) :
  NoDup (autos (marks (run cfg fs).2)).
Proof.
  by destruct (reachable_colours_exact cfg _ (run_reachable cfg fs))
    as (_ & _ & _ & H4 & _).
Qed.

Section artists.

Context (cfg : Config).




Lemma printed_opened_step st st' :
  printed (marks st) = fName_of <$> opened (marks st) →
  step cfg st st' →
  printed (marks st') = fName_of <$> opened (marks st').
Proof.
  intros Hp Hs.
  assert (∃ ms, marks st' = marks st ++ ms
                ∧ printed ms = fName_of <$> opened ms) as (ms & -> & Hms).
  { destruct Hs as [st p _|st p d _|st f i g x y lab ax _ _ _ _|st];
      unfold marks; cbn [begin_file store draw show trace].
    - eexists. by rewrite fmap_app.
    - exists []. by rewrite app_nil_r.
    - eexists. by rewrite fmap_app.
    - eexists. by rewrite fmap_app. }
  unfold printed, opened in *. by rewrite !omap_app, fmap_app, Hp, Hms.
Qed.

End artists.



(** X13. The names printed are, in order and with repetitions, the
    derived names of the files handed to [open]: every file the loop
    begins is printed once and opened once, whether or not it loads. *)
Theorem printed_names_are_opened_files (cfg : Config) (fs : FileSystem) :
  printed (marks (run cfg fs).2) = fName_of <$> opened (marks (run cfg fs).2).
Proof.
  generalize (run_reachable cfg fs). generalize ((run cfg fs).2).
  apply reachable_ind; [done|]. intros st st'. apply printed_opened_step.
Qed.

(** ** The records held and the data drawn *)

Section records.

Context (cfg : Config) (fs : FileSystem).

Lemma gates_keep_data fName d gl st r st' :
  dataDict st !! fName = Some d →
  for_each gl (fun ig => plot_gate cfg fName ig.1 ig.2) st = (r, st') →
  dataDict st' = dataDict st
  ∧ ∃ t, trace st' = trace st ++ t ∧ Forall (event_shows fName d) t.
Proof.
  revert st. induction gl as [|[i g] gl IH]; intros st Hd.
  { intros [= <- <-]. split; [done|]. exists []. by rewrite app_nil_r. }
  rewrite for_each_cons. cbn [fst snd].
  destruct (plot_gate cfg fName i g st) as [r1 st1] eqn:Hp.
  apply plot_gate_cases in Hp
      as [(-> & _)|(d' & e0 & x & y & lab & ax & -> & Hd' & _ & Hg & Hx & Hy
                    & _ & _ & ->)].
  - destruct r1 as [[]|e]; cbv beta iota; [by apply IH|].
    intros [= <- <-]. split; [done|]. exists []. by rewrite app_nil_r.
  - cbv beta iota. rewrite Hd in Hd'. injection Hd' as <-.
    intros (Hdd & t & Ht & Hall)%IH; [|done]. split; [done|].
    eexists. split; [rewrite Ht; unfold draw; cbn [trace];
                     by rewrite <-app_assoc|].
    assert (reads d g x y) by (by exists e0).
    repeat (constructor; [by split|]). done.
Qed.

Lemma process_file_records p st r st' :
  fName_of p ∉ ignoreList cfg →
  process_file cfg fs p st = (r, st') →
  dataDict st' = records_of fs [p] (dataDict st)
  ∧ ∃ t, trace st' = trace st ++ t ∧ Forall (event_reads fs [p]) t.
Proof.
  intros Hi. rewrite process_file_unfold, bool_decide_false by done.
  cbv zeta. unfold records_of. cbn [foldl].
  destruct (fs_node fs p) as [[| |d]|] eqn:Hn;
    try (intros [= <- <-]; split; [done|]; eexists; split; [done|];
         by repeat constructor).
  intros (Hd & t & Ht & Hall)%(gates_keep_data _ d);
    [|by apply lookup_insert_eq].
  split; [done|]. eexists. split.
  { rewrite Ht. cbn [store begin_file trace]. by rewrite <-app_assoc. }
  repeat (constructor; [done|]).
  eapply Forall_impl; [done|].
  intros [] Hs; try done; destruct Hs as [-> ?];
    exists p, d; split_and!; try done; set_solver.
Qed.

Lemma event_reads_mono files files' e :
  files ⊆ files' → event_reads fs files e → event_reads fs files' e.
Proof.
  intros Hsub. destruct e; try done;
    intros (p & d & ? & ?); exists p, d; split; auto.
Qed.

Lemma records_of_app ps qs m :
  records_of fs (ps ++ qs) m = records_of fs qs (records_of fs ps m).
Proof. apply foldl_app. Qed.

Lemma run_files_records files st r st' :
  run_files cfg fs files st = (r, st') →
  ∃ T t, marks st' = marks st ++ T
         ∧ dataDict st' = records_of fs (opened T) (dataDict st)
         ∧ trace st' = trace st ++ t
         ∧ Forall (event_reads fs files) t.
Proof.
  unfold run_files. revert st.
  induction files as [|p files IH]; intros st.
  { intros [= <- <-]. exists [], []. by rewrite !app_nil_r. }
  rewrite for_each_cons.
  destruct (decide (fName_of p ∈ ignoreList cfg)) as [Hi|Hi].
  { rewrite process_file_ignored by done.
    intros (T & t & ? & ? & ? & Hall)%IH. exists T, t. split_and!; [done..|].
    eapply Forall_impl; [done|]. intros e. apply event_reads_mono. set_solver. }
  destruct (process_file cfg fs p st) as [r1 st1] eqn:Hp.
  pose proof (process_file_opened _ _ _ _ _ _ Hi Hp) as (T1 & Hm1 & Ho1).
  pose proof (process_file_records _ _ _ _ Hi Hp) as (Hd1 & t1 & Ht1 & Hall1).
  assert (Forall (event_reads fs (p :: files)) t1) as Hall1'.
  { eapply Forall_impl; [done|]. intros e. apply event_reads_mono. set_solver. }
  destruct r1 as [[]|e1]; cbv beta iota.
  - intros (T & t & Hm & Hd & Ht & Hall)%IH. exists (T1 ++ T), (t1 ++ t).
    split_and!.
    + by rewrite Hm, Hm1, <-app_assoc.
    + unfold opened in *. rewrite omap_app, Ho1, records_of_app, <-Hd1. done.
    + by rewrite Ht, Ht1, <-app_assoc.
    + apply Forall_app. split; [done|].
      eapply Forall_impl; [done|]. intros e. apply event_reads_mono. set_solver.
  - intros [= <- <-]. exists T1, t1. by rewrite Ho1.
Qed.

Lemma records_of_lookup ps m s d :
  records_of fs ps m !! s = Some d →
  m !! s = Some d
  ∨ ∃ p, p ∈ ps ∧ fName_of p = s ∧ fs_node fs p = Some (Json d).
Proof.
  revert m. induction ps as [|p ps IH]; intros m; [by left|].
  change (records_of fs (p :: ps) m)
    with (records_of fs ps (records_of fs [p] m)).
  intros [Hs|(q & ? & ? & ?)]%IH; [|right; exists q; set_solver].
  revert Hs. unfold records_of. cbn [foldl].
  destruct (fs_node fs p) as [[| |d']|] eqn:Hn; try (by left).
  destruct (decide (fName_of p = s)) as [<-|Hne].
  - rewrite lookup_insert_eq. intros [= ->]. right. exists p. set_solver.
  - rewrite lookup_insert_ne by done. by left.
Qed.

End records.

(** X14. The data dictionary at the end is built from the files opened,
    in the order they were opened: each file that loads puts its record
    under its derived name, a later file with the same derived name
    replacing the record of an earlier one.  So every record it holds is
    the parsed content of an opened file with that derived name. *)
Theorem dataDict_at_the_end (cfg : Config) (fs : FileSystem) :
  dataDict (run cfg fs).2 = records_of fs (opened (marks (run cfg fs).2)) ∅
  ∧ ∀ s d, dataDict (run cfg fs).2 !! s = Some d →
           ∃ p, p ∈ opened (marks (run cfg fs).2) ∧ fName_of p = s
                ∧ fs_node fs p = Some (Json d).
Proof.
  assert (dataDict (run cfg fs).2
          = records_of fs (opened (marks (run cfg fs).2)) ∅) as Heq.
  { unfold run. rewrite main_unfold.
    destruct (run_files cfg fs (resultFiles fs) (init cfg)) as [r st1] eqn:Hr.
    apply run_files_records in Hr as (T & t & Hm & Hd & _).
    change (marks (init cfg)) with (@nil mark) in Hm. rewrite app_nil_l in Hm.
    destruct r as [[]|e]; cbn [snd].
    - change (dataDict (show st1)) with (dataDict st1).
      assert (marks (show st1) = marks st1 ++ [MShow]) as ->
        by (unfold marks, show; cbn [trace]; by rewrite fmap_app).
      unfold opened in *. rewrite omap_app. cbn. by rewrite app_nil_r, Hm.
    - by rewrite Hm. }
  split; [done|]. intros s d. rewrite Heq.
  intros [Hs|?]%records_of_lookup; [|done]. by rewrite lookup_empty in Hs.
Qed.

Lemma dataDict_at_the_end_witness :
  ∃ p, p ∈ opened (marks (run cfg_demo fs_demo).2) ∧ fName_of p = "b"
       ∧ fs_node fs_demo p = Some (Json (record_with ["H"; "Y"])).
Proof.
  destruct (dataDict_at_the_end cfg_demo fs_demo) as [_ H].
  apply H. reflexivity.
Defined.

(** X15. What is drawn is the data of the files, unchanged: for every
    [plot] and every [scatter] call of the run there is an input file with
    the call's source as derived name whose parsed record gives, under the
    call's gate, the x data as "nqubits" and the y data as "times". *)
Theorem drawn_data_is_file_data (cfg : Config) (fs : FileSystem) (e : event) :
  e ∈ trace (run cfg fs).2 → event_reads fs (resultFiles fs) e.
Proof.
  unfold run. rewrite main_unfold.
  destruct (run_files cfg fs (resultFiles fs) (init cfg)) as [r st1] eqn:Hr.
  apply run_files_records in Hr as (T & t & _ & _ & Ht & Hall).
  cbn [init trace] in Ht. rewrite app_nil_l in Ht.
  rewrite Forall_forall in Hall.
  destruct r as [[]|e1]; cbn [snd show trace]; rewrite Ht.
  - intros [?|Hs]%elem_of_app; [by apply Hall|].
    apply list_elem_of_singleton in Hs. by subst e.
  - apply Hall.
Qed.

Lemma drawn_data_is_file_data_witness :
  event_reads fs_demo (resultFiles fs_demo)
    (EvPlot "a" "X" true
       {| l_xdata := xs3; l_ydata := ts3; l_label := "a";
          l_linewidth := 1; l_color := "#1f77b4" |}).
Proof.
  apply (drawn_data_is_file_data cfg_demo fs_demo).
  apply (list_elem_of_lookup_2 _ 2). vm_compute. reflexivity.
Defined.

(** ** The legends *)

Section legends.

Context (cfg : Config).


End legends.



(** ** The colour cycles *)

Section cycles.

Context (cfg : Config) (fs : FileSystem).







End cycles.



(** ** No file twice *)

Section once.

Context (cfg : Config) (fs : FileSystem).

Lemma NoDup_resultFiles :
  (∀ es, data_dir fs = Some es → NoDup es.*1) → NoDup (resultFiles fs).
Proof.
  intros Hnd. unfold resultFiles. rewrite merge_sort_Permutation.
  unfold Glob.glob, listdir. destruct (data_dir fs) as [es|]; cbn;
    [|constructor].
  apply NoDup_fmap_2; [intros n1 n2; apply path_join_inj|].
  apply NoDup_filter. cbn. apply NoDup_filter. by apply Hnd.
Qed.

Lemma NoDup_prefix {A} (l1 l2 : list A) :
  l1 `prefix_of` l2 → NoDup l2 → NoDup l1.
Proof. intros [k ->] H. by apply NoDup_app in H as (? & _). Qed.



End once.

(** X18. When the entries of the data directory have distinct names, no
    file is opened twice in a run. *)
Theorem no_file_opened_twice (cfg : Config) (fs : FileSystem) :
  (∀ es, data_dir fs = Some es → NoDup es.*1) →
  NoDup (opened (marks (run cfg fs).2)).
Proof.
  intros Hnd.
  apply (NoDup_prefix _ (kept cfg (resultFiles fs))).
  - destruct (run_marks cfg fs) as (T & (_ & _ & _ & H4 & _) & ->).
    unfold opened in *. rewrite omap_app.
    destruct (run cfg fs).1; cbn; rewrite app_nil_r; exact H4.
  - unfold kept. apply NoDup_filter. by apply NoDup_resultFiles.
Qed.

Lemma no_file_opened_twice_witness :
  NoDup (opened (marks (run cfg_demo fs_demo).2)).
Proof.
  apply (no_file_opened_twice cfg_demo fs_demo).
  intros es [= <-]. vm_compute. repeat (constructor; [set_solver|]).
  constructor.
Defined.


